(** * torchdistill: dataset registry, forward-process registry and dataset wrappers

    A shallow embedding of
      - [torchdistill/core/registry.py]      (forward-process-function registry),
      - [torchdistill/datasets/registry.py]  (dataset registry),
      - [torchdistill/datasets/wrapper.py]   (dataset wrappers),
    followed by the properties of these modules.

    Python values are modelled as follows: [int] as [Z], [str] as [string],
    a [dict] with string keys as a [gmap string _], a [list] or a numpy index
    array as a [list], an exception as a constructor of [exn] carried by the
    error monad [result].  Objects that are shared and mutated (the wrapped
    dataset) live in a store indexed by references. *)

From Stdlib Require Import ZArith Ascii String Floats Uint63.
From stdpp Require Import base numbers list list_numbers strings pretty gmap fin_maps functions.

Local Open Scope Z_scope.

(** ** Exceptions and the error monad *)

Inductive exn : Type :=
  | IndexError
  | KeyError
  | ValueError
  | TypeError
  | AttributeError
  | NotImplementedError
  | OverflowError
  | FileNotFoundError
  | RuntimeError.

Inductive result (A : Type) : Type :=
  | Ok (a : A)
  | Raise (e : exn).
Arguments Ok {A} a.
Arguments Raise {A} e.

Global Instance result_ret : MRet result := λ A a, Ok a.
Global Instance result_bind : MBind result := λ A B k m,
  match m with
  | Ok a => k a
  | Raise e => Raise e
  end.

Global Instance result_fmap : FMap result := λ A B f m,
  match m with
  | Ok a => Ok (f a)
  | Raise e => Raise e
  end.

Definition is_ok {A : Type} (m : result A) : Prop := ∃ a, m = Ok a.

(** ** Python sequences *)

(** [l[i]] position arithmetic: a negative index counts from the end. *)
Definition py_index (n : nat) (i : Z) : result nat :=
  if decide (0 ≤ i < Z.of_nat n) then Ok (Z.to_nat i)
  else if decide (- Z.of_nat n ≤ i < 0) then Ok (Z.to_nat (i + Z.of_nat n))
  else Raise IndexError.

(** [l[i]] *)
Definition py_getitem {A : Type} (l : list A) (i : Z) : result A :=
  k ← py_index (length l) i;
  match l !! k with
  | Some x => Ok x
  | None => Raise IndexError
  end.

(** [range(n)] *)
Definition py_range (n : Z) : list Z := seqZ 0 n.

(** ** Python strings *)

Fixpoint string_drop (n : nat) (s : string) : string :=
  match n, s with
  | O, _ => s
  | S n', String _ s' => string_drop n' s'
  | S _, EmptyString => EmptyString
  end.

(** [s[k:]] *)
Definition py_slice_from (s : string) (k : Z) : string :=
  let len := Z.of_nat (String.length s) in
  let start := if decide (k < 0) then Z.max 0 (len + k) else Z.min k len in
  string_drop (Z.to_nat start) s.

Fixpoint zeros (n : nat) : string :=
  match n with
  | O => EmptyString
  | S n' => String "0"%char (zeros n')
  end.

(** [str(i)] for an [int] *)
Definition py_str_int (i : Z) : string := pretty i.

(** ['{:0Wd}'.format(i)]: sign-aware zero padding to width [W]. *)
Definition format_0d (width : nat) (i : Z) : string :=
  if decide (i < 0)
  then "-" +:+ zeros (width - 1 - String.length (py_str_int (- i))) +:+ py_str_int (- i)
  else zeros (width - String.length (py_str_int i)) +:+ py_str_int i.

Definition string_starts_with_sep (s : string) : bool :=
  match s with
  | String "/"%char _ => true
  | _ => false
  end.

Fixpoint string_ends_with_sep (s : string) : bool :=
  match s with
  | EmptyString => false
  | String c EmptyString => bool_decide (c = "/"%char)
  | String _ s' => string_ends_with_sep s'
  end.

(** [os.path.join(a, b)] of [posixpath]. *)
Definition os_path_join (a b : string) : string :=
  if string_starts_with_sep b then b
  else if bool_decide (a = EmptyString) || string_ends_with_sep a then a +:+ b
  else a +:+ "/" +:+ b.

(** ** [wrapper.py]: [default_idx2subpath] *)

Definition default_idx2subpath (index : Z) : string :=
  let digits_str := format_0d 4 index in
  os_path_join (py_slice_from digits_str (-4)) digits_str.

(** ** Python dictionaries *)

(** [d[k]] *)
Definition dict_getitem {V : Type} (d : gmap string V) (k : string) : result V :=
  match d !! k with
  | Some v => Ok v
  | None => Raise KeyError
  end.

(** [k in d] *)
Definition dict_contains {V : Type} (d : gmap string V) (k : string) : bool :=
  bool_decide (is_Some (d !! k)).

(** [d.update(other)]: the entries of [other] win. *)
Definition dict_update {V : Type} (d other : gmap string V) : gmap string V :=
  other ∪ d.

(** [kwargs.get(k)]: the value, or [None] when the keyword is absent.  A
    keyword passed as [None] is indistinguishable from an absent one. *)
Definition kwargs_get (kwargs : gmap string (option string)) (k : string) : option string :=
  match kwargs !! k with
  | Some v => v
  | None => None
  end.

(** ** [core/registry.py] *)

Module CoreRegistry.
Section core_registry.
(** Python callables, with their [__name__] attribute when they have one. *)
Context {func : Type}.
Variable dunder_name : func → option string.

(** [PROC_FUNC_DICT = dict()] *)
Definition PROC_FUNC_DICT : gmap string func := ∅.

Definition _register_forward_proc_func (kwargs : gmap string (option string))
    (f : func) (d : gmap string func) : result func * gmap string func :=
  match kwargs_get kwargs "key" with
  | Some key => (Ok f, <[key := f]> d)
  | None =>
      match dunder_name f with
      | Some key => (Ok f, <[key := f]> d)
      | None => (Raise AttributeError, d)
      end
  end.

(** The registry is global state: every operation takes the dictionary and
    returns it next to its outcome. *)
Definition get_forward_proc_func (func_name : option string) (d : gmap string func)
    : result func * gmap string func :=
  match func_name with
  | None => (dict_getitem d "forward_batch_only", d)
  | Some name =>
      if dict_contains d name then (dict_getitem d name, d)
      else (Raise ValueError, d)
  end.
End core_registry.

Section core_registry_decorator.
(** Python objects handed to the decorator: [callable(o)] and [o.__name__]. *)
Context {func : Type}.
Variable callable : func → bool.
Variable dunder_name : func → option string.

(** What [register_forward_proc_func] hands back: the registered function, or
    the decorator still to be applied. *)
Inductive registered : Type :=
  | Registered (f : func)
  | Decorator (dec : func → gmap string func → result func * gmap string func).

(** [arg] is [None] for Python's [None], which is not callable. *)
Definition register_forward_proc_func (arg : option func)
    (kwargs : gmap string (option string)) (d : gmap string func)
    : result registered * gmap string func :=
  match arg with
  | Some a =>
      if callable a
      then let '(r, d') := _register_forward_proc_func dunder_name kwargs a d in
           (Registered <$> r, d')
      else (Ok (Decorator (_register_forward_proc_func dunder_name kwargs)), d)
  | None => (Ok (Decorator (_register_forward_proc_func dunder_name kwargs)), d)
  end.
End core_registry_decorator.
End CoreRegistry.

(** ** [datasets/registry.py] *)

Module DatasetRegistry.
Section dataset_registry.
(** Python objects that can sit in the registry: [callable(o)] and
    [o.__name__] (absent for objects without the attribute). *)
Context {obj : Type}.
Variable callable : obj → bool.
Variable dunder_name : obj → option string.

(** [DATASET_DICT = dict(); DATASET_DICT.update(torchvision.datasets.__dict__)],
    with the catalog module's namespace as a parameter. *)
Definition DATASET_DICT (torchvision_datasets : gmap string obj) : gmap string obj :=
  dict_update ∅ torchvision_datasets.

Definition _register_dataset (kwargs : gmap string (option string))
    (cls_or_func : obj) (d : gmap string obj) : result obj * gmap string obj :=
  match kwargs_get kwargs "key" with
  | Some key => (Ok cls_or_func, <[key := cls_or_func]> d)
  | None =>
      match dunder_name cls_or_func with
      | Some key => (Ok cls_or_func, <[key := cls_or_func]> d)
      | None => (Raise AttributeError, d)
      end
  end.

(** What [register_dataset] hands back: the registered object, or the
    decorator still to be applied. *)
Inductive registered : Type :=
  | Registered (o : obj)
  | Decorator (dec : obj → gmap string obj → result obj * gmap string obj).

(** [arg] is [None] for Python's [None], which is not callable. *)
Definition register_dataset (arg : option obj) (kwargs : gmap string (option string))
    (d : gmap string obj) : result registered * gmap string obj :=
  match arg with
  | Some a =>
      if callable a
      then let '(r, d') := _register_dataset kwargs a d in (Registered <$> r, d')
      else (Ok (Decorator (_register_dataset kwargs)), d)
  | None => (Ok (Decorator (_register_dataset kwargs)), d)
  end.
End dataset_registry.
End DatasetRegistry.

(** ** numpy's random module

    [np.random.permutation] and [np.random.choice] are modelled by their
    documented contract.  The random bits come from an explicit tape of
    natural numbers that is threaded through the calls; every outcome numpy
    can produce is the outcome of some tape. *)

Definition rng : Type := list nat.

Definition rng_next (g : rng) : nat * rng :=
  match g with
  | [] => (O, [])
  | r :: g' => (r, g')
  end.

(** A position below [n]. *)
Definition rng_below (n : nat) (g : rng) : nat * rng :=
  let '(r, g') := rng_next g in ((r `mod` n)%nat, g').

Fixpoint np_permutation_go (fuel : nat) (l : list Z) (g : rng) : list Z * rng :=
  match fuel, l with
  | S fuel', d :: _ =>
      let '(k, g') := rng_below (length l) g in
      let '(rest, g'') := np_permutation_go fuel' (delete k l) g' in
      (nth k l d :: rest, g'')
  | _, _ => ([], g)
  end.

(** [np.random.permutation(a)]: a shuffled copy of [a]. *)
Definition np_random_permutation (a : list Z) (g : rng) : list Z * rng :=
  np_permutation_go (length a) a g.

Fixpoint np_draws (size : nat) (a : list Z) (d : Z) (g : rng) : list Z * rng :=
  match size with
  | O => ([], g)
  | S size' =>
      let '(k, g') := rng_below (length a) g in
      let '(rest, g'') := np_draws size' a d g' in
      (nth k a d :: rest, g'')
  end.

(** [np.random.choice(a, size, replace=replace)] for a 1-D array [a]. *)
Definition np_random_choice (a : list Z) (size : Z) (replace : bool) (g : rng)
    : result (list Z) * rng :=
  if decide (size < 0) then (Raise ValueError, g)
  else match a with
       | [] => if decide (size = 0) then (Ok [], g) else (Raise ValueError, g)
       | d :: _ =>
           if replace
           then let '(r, g') := np_draws (Z.to_nat size) a d g in (Ok r, g')
           else if decide (Z.of_nat (length a) < size) then (Raise ValueError, g)
           else let '(p, g') := np_random_permutation a g in
                (Ok (take (Z.to_nat size) p), g')
       end.

(** Computations that consume randomness and may raise. *)
Definition rand (A : Type) : Type := rng → result A * rng.

Global Instance rand_ret : MRet rand := λ A a g, (Ok a, g).
Global Instance rand_bind : MBind rand := λ A B k m g,
  match m g with
  | (Ok a, g') => k a g'
  | (Raise e, g') => (Raise e, g')
  end.

Definition lift {A : Type} (m : result A) : rand A := λ g, (m, g).

(** ** Floats

    [ratio] is a binary64 float.  [len * ratio] converts the length exactly and
    multiplies in binary64; [int(x)] truncates towards zero. *)

Definition float_of_len (n : nat) : float :=
  PrimFloat.of_uint63 (Uint63.of_Z (Z.of_nat n)).

Definition py_int_of_float (x : float) : result Z :=
  match Prim2SF x with
  | S754_zero _ => Ok 0
  | S754_finite s m e =>
      let a := if decide (0 ≤ e) then Z.shiftl (Z.pos m) e else Z.shiftr (Z.pos m) (- e) in
      Ok (if s then - a else a)
  | S754_infinity _ => Raise OverflowError
  | S754_nan => Raise ValueError
  end.

(** [0 < ratio < 1] *)
Definition ratio_in_unit (ratio : float) : bool :=
  PrimFloat.ltb 0 ratio && PrimFloat.ltb ratio 1.

(** [l[0:n]] *)
Definition py_slice_to {A : Type} (l : list A) (n : Z) : list A :=
  let len := Z.of_nat (length l) in
  let stop := if decide (n < 0) then Z.max 0 (len + n) else Z.min n len in
  take (Z.to_nat stop) l.

(** ** [wrapper.py]: datasets and wrappers *)

(** Tensor elements of an integer dtype convert to a Python [int] through
    [__index__]; [elem_index x] is that integer, and [None] for an element of
    any other dtype. *)
Class ElemIndex (elt : Type) := elem_index : elt → option Z.

Section wrappers.
(** PIL images with [Image.rotate(angle, expand=...)], and tensor elements. *)
Context {image elt : Type} `{!ElemIndex elt}.
Variable rotate : image → Z → bool → image.

Record tensor : Type := Tensor { shape : list nat; storage : list elt }.

(** [torch.stack(ts)]: the tensors must have one shape; the result has a new
    leading dimension. *)
Definition torch_stack (ts : list tensor) : result tensor :=
  match ts with
  | [] => Raise RuntimeError
  | t :: _ =>
      if forallb (λ u, bool_decide (shape u = shape t)) ts
      then Ok (Tensor (length ts :: shape t) (concat (storage <$> ts)))
      else Raise RuntimeError
  end.

(** Values that occur as samples, targets and supplementary entries. *)
Inductive value : Type :=
  | VNone
  | VInt (z : Z)
  | VStr (s : string)
  | VArr (a : list Z)
  | VImage (im : image)
  | VTensor (t : tensor).

(** [v] used as the index of a list, [l[v]] (lines 123 and 128): an [int]
    indexes as itself, a tensor with a single element of an integer dtype as
    that element ([Tensor.__index__]).  A list takes no other value of this
    model: [None], strings and images have no [__index__], and numpy converts
    only zero-dimensional integer arrays, where the arrays here are the
    one-dimensional index arrays. *)
Definition as_int (v : value) : result Z :=
  match v with
  | VInt z => Ok z
  | VTensor t =>
      match storage t with
      | [x] => match elem_index x with
               | Some z => Ok z
               | None => Raise TypeError
               end
      | _ => Raise TypeError
      end
  | _ => Raise TypeError
  end.

(** [sample.rotate(angle, expand=expand)] *)
Definition pil_rotate (v : value) (angle : Z) (expand : bool) : result value :=
  match v with
  | VImage im => Ok (VImage (rotate im angle expand))
  | _ => Raise AttributeError
  end.

(** [x.detach()]: the same values, cut from the autograd graph. *)
Definition detach (v : value) : result tensor :=
  match v with
  | VTensor t => Ok t
  | _ => Raise AttributeError
  end.

Definition transform_t : Type := value → result value.

(** The wrapped dataset as the wrappers see it: the attributes [classes],
    [targets] and [transform], [len(ds)] and [ds.__getitem__], which reads
    the current [transform] attribute. *)
Record dataset : Type := Dataset {
  ds_classes : list string;
  ds_targets : list Z;
  ds_transform : option transform_t;
  ds_len : nat;
  ds_item : option transform_t → Z → result (list value)
}.

Definition ds_getitem (ds : dataset) (index : Z) : result (list value) :=
  ds_item ds (ds_transform ds) index.

(** Datasets are shared objects: wrappers hold a reference into the store. *)
Abbreviation loc := nat.
Abbreviation store := (loc → dataset).

Abbreviation supp_dict := (gmap string value).

(** *** [BaseDatasetWrapper] *)

Record BaseDatasetWrapper : Type := { org_dataset : loc }.

Definition base_init (org : loc) : BaseDatasetWrapper := {| org_dataset := org |}.

Definition base_getitem (st : store) (w : BaseDatasetWrapper) (index : Z)
    : result (value * value * supp_dict) :=
  item ← ds_getitem (st (org_dataset w)) index;
  match item with
  | [sample; target] => Ok (sample, target, ∅)
  | _ => Raise ValueError
  end.

Definition base_len (st : store) (w : BaseDatasetWrapper) : nat :=
  ds_len (st (org_dataset w)).
(** *** [CacheableDataset] *)

(** The cache directory as far as the wrapper observes it: every existing
    path with what [torch.load] makes of it. *)
Definition filesystem : Type := gmap string (result value).

(** Modelled from the spec: [file_util.check_if_exists] of
    [torchdistill/common/file_util.py], which is not part of the excerpt;
    "if a file exists at that path". *)
Definition check_if_exists (fs : filesystem) (file_path : string) : bool :=
  bool_decide (is_Some (fs !! file_path)).

(** [torch.load(path)] *)
Definition torch_load (fs : filesystem) (file_path : string) : result value :=
  match fs !! file_path with
  | Some r => r
  | None => Raise FileNotFoundError
  end.

Record CacheableDataset : Type := {
  cacheable_base : BaseDatasetWrapper;
  cache_dir_path : string;
  idx2subath_func : Z → string;
  ext : string
}.

(** [idx2subpath_func=None] selects [str]; [ext] defaults to ['.pt']. *)
Definition cacheable_init (org : loc) (cache_dir : string)
    (idx2subpath_func : option (Z → string)) (ext_arg : option string)
    : CacheableDataset :=
  {| cacheable_base := base_init org;
     cache_dir_path := cache_dir;
     idx2subath_func := default py_str_int idx2subpath_func;
     ext := default ".pt" ext_arg |}.

Definition cacheable_getitem (st : store) (fs : filesystem) (w : CacheableDataset)
    (index : Z) : result (value * value * supp_dict) :=
  '(sample, target, supp) ← base_getitem st (cacheable_base w) index;
  let cache_file_path :=
    os_path_join (cache_dir_path w) (idx2subath_func w index +:+ ext w) in
  supp ← (if check_if_exists fs cache_file_path
          then cached_data ← torch_load fs cache_file_path;
               Ok (<["cached_data" := cached_data]> supp)
          else Ok supp);
  Ok (sample, target, <["cache_file_path" := VStr cache_file_path]> supp).

Definition cacheable_len (st : store) (w : CacheableDataset) : nat :=
  base_len st (cacheable_base w).

(** *** [CRDDatasetWrapper] *)

Record CRDDatasetWrapper : Type := {
  crd_base : BaseDatasetWrapper;
  num_negative_samples : Z;
  mode : string;
  cls_positives : list (list Z);
  cls_negatives : list (list Z)
}.

(** [cls_positives[labels[i]].append(i)] *)
Definition append_positive (labels : list Z) (cls : list (list Z)) (i : Z)
    : result (list (list Z)) :=
  label ← py_getitem labels i;
  k ← py_index (length cls) label;
  Ok (alter (λ c, c ++ [i]) k cls).

(** The first loop of [__init__]. *)
Definition build_positives (labels : list Z) (num_classes num_samples : nat)
    : result (list (list Z)) :=
  foldl (λ acc i, cls ← acc; append_positive labels cls i)
        (Ok (replicate num_classes [])) (py_range (Z.of_nat num_samples)).

(** The inner loop for class [i]: every other class's positives, in class
    order.  [j] stays below the length of [positives]. *)
Definition negatives_of (positives : list (list Z)) (num_classes i : nat) : list Z :=
  foldl (λ acc j, if decide (j = i) then acc else acc ++ positives !!! j)
        [] (seq 0 num_classes).

(** The second loop of [__init__]. *)
Definition build_negatives (positives : list (list Z)) (num_classes : nat)
    : list (list Z) :=
  (λ i, negatives_of positives num_classes i) <$> seq 0 num_classes.

(** [[np.random.permutation(negs[i])[0:n] for i in range(num_classes)]] *)
Fixpoint subsample_negatives (n : Z) (negatives : list (list Z)) (g : rng)
    : list (list Z) * rng :=
  match negatives with
  | [] => ([], g)
  | neg :: rest =>
      let '(p, g') := np_random_permutation neg g in
      let '(ps, g'') := subsample_negatives n rest g' in
      (py_slice_to p n :: ps, g'')
  end.

Definition subsample (n : Z) (negatives : list (list Z)) : rand (list (list Z)) :=
  λ g, let '(subs, g') := subsample_negatives n negatives g in (Ok subs, g').

Definition crd_init (st : store) (org : loc) (num_negative_samples : Z)
    (mode : string) (ratio : float) : rand CRDDatasetWrapper :=
  let ds := st org in
  let num_classes := length (ds_classes ds) in
  let num_samples := ds_len ds in
  let labels := ds_targets ds in
  positives ← lift (build_positives labels num_classes num_samples);
  let negatives := build_negatives positives num_classes in
  negatives ← (if ratio_in_unit ratio
               then negatives0 ← lift (py_getitem negatives 0);
                    n ← lift (py_int_of_float
                                (PrimFloat.mul (float_of_len (length negatives0)) ratio));
                    subsample n negatives
               else mret negatives);
  mret {| crd_base := base_init org;
          num_negative_samples := num_negative_samples;
          mode := mode;
          cls_positives := positives;
          cls_negatives := negatives |}.

Definition crd_getitem (st : store) (w : CRDDatasetWrapper) (index : Z)
    : rand (value * value * supp_dict) :=
  '(sample, target, supp) ← lift (base_getitem st (crd_base w) index);
  pos_idx ← (if decide (mode w = "exact") then mret index
             else if decide (mode w = "relax")
             then t ← lift (as_int target);
                  positives ← lift (py_getitem (cls_positives w) t);
                  chosen ← np_random_choice positives 1 true;
                  lift (py_getitem chosen 0)
             else lift (Raise NotImplementedError));
  t ← lift (as_int target);
  negatives ← lift (py_getitem (cls_negatives w) t);
  let replace := bool_decide (Z.of_nat (length negatives) < num_negative_samples w) in
  neg_idx ← np_random_choice negatives (num_negative_samples w) replace;
  let contrast_idx := pos_idx :: neg_idx in
  let supp := <["pos_idx" := VInt index]> supp in
  let supp := <["contrast_idx" := VArr contrast_idx]> supp in
  mret (sample, target, supp).

Definition crd_len (st : store) (w : CRDDatasetWrapper) : nat :=
  base_len st (crd_base w).

(** *** [SSKDDatasetWrapper] *)

Record SSKDDatasetWrapper : Type := {
  sskd_base : BaseDatasetWrapper;
  sskd_transform : option transform_t
}.

Definition set_transform (tr : option transform_t) (ds : dataset) : dataset :=
  {| ds_classes := ds_classes ds;
     ds_targets := ds_targets ds;
     ds_transform := tr;
     ds_len := ds_len ds;
     ds_item := ds_item ds |}.

(** [self.transform = org_dataset.transform; org_dataset.transform = None] *)
Definition sskd_init (st : store) (org : loc) : SSKDDatasetWrapper * store :=
  ({| sskd_base := base_init org; sskd_transform := ds_transform (st org) |},
   <[org := set_transform None (st org)]> st).

(** [self.transform(x).detach()] *)
Definition transformed (tr : option transform_t) (x : value) : result tensor :=
  match tr with
  | Some f => y ← f x; detach y
  | None => Raise TypeError
  end.

Definition sskd_getitem (st : store) (w : SSKDDatasetWrapper) (index : Z)
    : result (value * value * supp_dict) :=
  '(sample, target, supp) ← base_getitem st (sskd_base w) index;
  let tr := sskd_transform w in
  t0 ← transformed tr sample;
  r90 ← pil_rotate sample 90 true;
  t90 ← transformed tr r90;
  r180 ← pil_rotate sample 180 true;
  t180 ← transformed tr r180;
  r270 ← pil_rotate sample 270 true;
  t270 ← transformed tr r270;
  stacked ← torch_stack [t0; t90; t180; t270];
  Ok (VTensor stacked, target, supp).

Definition sskd_len (st : store) (w : SSKDDatasetWrapper) : nat :=
  base_len st (sskd_base w).

(** *** [LeafDatasetWrapper] *)

Record LeafDatasetWrapper : Type := { leaf_org_dataset : loc }.

Definition leaf_init (org : loc) : LeafDatasetWrapper := {| leaf_org_dataset := org |}.

Definition leaf_getitem (st : store) (w : LeafDatasetWrapper) (index : Z)
    : result (value * value * value * supp_dict) :=
  item ← ds_getitem (st (leaf_org_dataset w)) index;
  match item with
  | [feats; waveform; target] => Ok (feats, waveform, target, ∅)
  | _ => Raise ValueError
  end.

Definition leaf_len (st : store) (w : LeafDatasetWrapper) : nat :=
  ds_len (st (leaf_org_dataset w)).
End wrappers.

(** ** Vocabulary of the specifications *)

(** The four low decimal digits of [y], most significant first, in front of [s]. *)
Definition low4 (y : N) (s : string) : string :=
  String (pretty_N_char ((y `div` 1000) `mod` 10)%N)
    (String (pretty_N_char ((y `div` 100) `mod` 10)%N)
       (String (pretty_N_char ((y `div` 10) `mod` 10)%N)
          (String (pretty_N_char (y `mod` 10)%N) s))).

(** The indices below [num_samples] labelled [c], in increasing order. *)
Definition class_positives (labels : list Z) (num_samples c : nat) : list Z :=
  filter (λ i, labels !! Z.to_nat i = Some (Z.of_nat c)) (py_range (Z.of_nat num_samples)).

(** Every label read by the constructor is a class index. *)
Definition valid_labels (labels : list Z) (num_classes num_samples : nat) : Prop :=
  ∀ i, (i < num_samples)%nat → ∃ l, labels !! i = Some l ∧ 0 ≤ l < Z.of_nat num_classes.


(** The class index after the first [k] samples. *)
Definition positives_upto (labels : list Z) (num_classes k : nat) : list (list Z) :=
  (λ c, filter (λ i, labels !! Z.to_nat i = Some (Z.of_nat c)) (py_range (Z.of_nat k)))
    <$> seq 0 num_classes.

(** The negatives of class [c] before any subsampling. *)
Definition full_negatives (labels : list Z) (num_classes num_samples c : nat) : list Z :=
  negatives_of (class_positives labels num_samples <$> seq 0 num_classes) num_classes c.

(** A float that is not a negative finite number. *)
Definition sf_nonneg (f : spec_float) : Prop :=
  match f with
  | S754_finite true _ _ => False
  | _ => True
  end.

(** [int(x)] for a float of value [f]: [n] is the value [± m * 2 ^ e] with its
    fractional part dropped; infinities and NaN have no integer part. *)
Definition float_trunc (f : spec_float) (n : Z) : Prop :=
  match f with
  | S754_zero _ => n = 0
  | S754_finite s m e =>
      ∃ a, n = (if s then - a else a) ∧ 0 ≤ a
           ∧ a * 2 ^ Z.max 0 (- e) ≤ Z.pos m * 2 ^ Z.max 0 e < (a + 1) * 2 ^ Z.max 0 (- e)
  | _ => False
  end.

(** ** A small dataset for the examples

    Seven images (numbered), three classes; [__getitem__] applies the
    [transform] attribute when it is set, as the vision datasets do. *)

(** The examples' tensors hold integers. *)
Global Instance Z_elem_index : ElemIndex Z := Some.

Definition ex_rotate (im : Z) (angle : Z) (expand : bool) : Z := im * 1000 + angle.

Definition ex_transform (v : @value Z Z) : result (@value Z Z) :=
  match v with
  | VImage im => Ok (VTensor (Tensor [1%nat] [im]))
  | _ => Raise TypeError
  end.

Definition ex_labels : list Z := [0; 1; 2; 1; 0; 2; 2].

Definition ex_item (tr : option (@transform_t Z Z)) (index : Z) : result (list (@value Z Z)) :=
  label ← py_getitem ex_labels index;
  k ← py_index 7 index;
  sample ← match tr with
           | Some f => f (VImage (Z.of_nat k))
           | None => Ok (VImage (Z.of_nat k))
           end;
  Ok [sample; VInt label].

Definition ex_dataset : @dataset Z Z :=
  {| ds_classes := ["cat"; "dog"; "bird"];
     ds_targets := ex_labels;
     ds_transform := Some ex_transform;
     ds_len := 7;
     ds_item := ex_item |}.

Definition ex_store : nat → @dataset Z Z := λ _, ex_dataset.

(** The wrapper [CRDDatasetWrapper(ds, 2, 'relax', 1.0)] on that dataset. *)
Definition ex_crd_relax : CRDDatasetWrapper :=
  {| crd_base := base_init 0;
     num_negative_samples := 2;
     mode := "relax";
     cls_positives := [[0; 4]; [1; 3]; [2; 5; 6]];
     cls_negatives := [[1; 3; 2; 5; 6]; [0; 4; 2; 5; 6]; [0; 4; 1; 3]] |}.

(** A cache directory with one file. *)
Definition ex_cache : @filesystem Z Z := {[ "/cache/3.pt" := Ok (VStr "features") ]}.

(** The claim that the ['pos_idx'] entry is the positive index, the first
    element of ['contrast_idx']. *)
Definition pos_idx_entry_is_positive_index {image elt : Type} `{!ElemIndex elt}
    (st : nat → @dataset image elt) (w : CRDDatasetWrapper) (index : Z) (g : rng) : Prop :=
  ∀ sample target supp g',
    crd_getitem st w index g = (Ok (sample, target, supp), g') →
    ∃ pos_idx neg_idx,
      supp !! "contrast_idx" = Some (VArr (pos_idx :: neg_idx))
      ∧ supp !! "pos_idx" = Some (VInt pos_idx).

(** The key a registration ends up under: the ['key'] keyword when it is given
    and not [None], the object's [__name__] otherwise. *)
Definition registration_key {obj : Type} (dunder_name : obj → option string)
    (kwargs : gmap string (option string)) (o : obj) : option string :=
  match kwargs_get kwargs "key" with
  | Some key => Some key
  | None => dunder_name o
  end.

(** Every label read by the constructor indexes the class list, from the front
    or, when negative, from the end. *)
Definition indexable_labels (labels : list Z) (num_classes num_samples : nat) : Prop :=
  ∀ i, (i < num_samples)%nat →
       ∃ l, labels !! i = Some l ∧ - Z.of_nat num_classes ≤ l < Z.of_nat num_classes.

(** A transform that keeps the size of the upright image 3 only. *)
Definition ex_transform_ragged (v : @value Z Z) : result (@value Z Z) :=
  match v with
  | VImage 3 => Ok (VTensor (Tensor [2%nat] [3; 3]))
  | _ => ex_transform v
  end.

(** Two hand-built wrappers of the example dataset: one with a mode the
    wrapper does not know, one whose class 0 has no negatives. *)
Definition ex_crd_strict : CRDDatasetWrapper :=
  {| crd_base := base_init 0;
     num_negative_samples := 2;
     mode := "strict";
     cls_positives := cls_positives ex_crd_relax;
     cls_negatives := cls_negatives ex_crd_relax |}.

Definition ex_crd_no_negatives : CRDDatasetWrapper :=
  {| crd_base := base_init 0;
     num_negative_samples := 2;
     mode := "exact";
     cls_positives := [[0; 1; 2; 3; 4; 5; 6]];
     cls_negatives := [[]] |}.

(** The example dataset with its labels as one-element integer tensors, and
    the wrapper [CRDDatasetWrapper(ds, 2, 'exact', 1.0)]. *)
Definition ex_item_tensor_target (tr : option (@transform_t Z Z)) (index : Z)
    : result (list (@value Z Z)) :=
  label ← py_getitem ex_labels index;
  items ← ex_item tr index;
  sample ← py_getitem items 0;
  Ok [sample; VTensor (Tensor [] [label])].

Definition ex_dataset_tensor_targets : @dataset Z Z :=
  {| ds_classes := ["cat"; "dog"; "bird"];
     ds_targets := ex_labels;
     ds_transform := Some ex_transform;
     ds_len := 7;
     ds_item := ex_item_tensor_target |}.

Definition ex_crd_exact : CRDDatasetWrapper :=
  {| crd_base := base_init 0;
     num_negative_samples := 2;
     mode := "exact";
     cls_positives := cls_positives ex_crd_relax;
     cls_negatives := cls_negatives ex_crd_relax |}.

(** * Properties *)

(** ** Strings *)

Lemma string_app_cons (c : ascii) (s1 s2 : string) :
  String c s1 +:+ s2 = String c (s1 +:+ s2).
Proof. reflexivity. Qed.

Lemma string_app_assoc (s1 s2 s3 : string) : (s1 +:+ s2) +:+ s3 = s1 +:+ s2 +:+ s3.
Proof.
  induction s1 as [|c s1 IH]; [done|]. rewrite !string_app_cons. by f_equal.
Qed.

Lemma string_app_nil_r (s : string) : s +:+ "" = s.
Proof. induction s as [|c s IH]; [done|]. rewrite string_app_cons. by f_equal. Qed.

Lemma string_app_length (s1 s2 : string) :
  String.length (s1 +:+ s2) = (String.length s1 + String.length s2)%nat.
Proof.
  induction s1 as [|c s1 IH]; [done|]. rewrite string_app_cons. simpl. by f_equal.
Qed.

Lemma string_drop_app (s1 s2 : string) : string_drop (String.length s1) (s1 +:+ s2) = s2.
Proof.
  induction s1 as [|c s1 IH]; [by destruct s2|]. by rewrite string_app_cons.
Qed.

Lemma py_slice_from_suffix (s1 s2 : string) :
  s2 ≠ "" → py_slice_from (s1 +:+ s2) (- Z.of_nat (String.length s2)) = s2.
Proof.
  intros Hs2. unfold py_slice_from. rewrite string_app_length.
  assert (0 < String.length s2)%nat by (destruct s2; [done|simpl; lia]).
  rewrite decide_True by lia.
  replace (Z.to_nat _) with (String.length s1) by lia. apply string_drop_app.
Qed.

(** ** Decimal strings *)

Section decimal.
Local Open Scope N_scope.

Lemma pretty_N_go_app x s : pretty_N_go x s = pretty_N_go x "" +:+ s.
Proof.
  revert s. induction (N.lt_wf_0 x) as [x _ IH]; intros s.
  destruct (decide (x = 0)) as [->|Hx]; [by rewrite !pretty_N_go_0|].
  rewrite (pretty_N_go_step x s), (pretty_N_go_step x "") by lia.
  assert (x `div` 10 < x) as Hlt by (apply N.div_lt; lia).
  rewrite (IH _ Hlt (String _ s)), (IH _ Hlt (String _ "")).
  by rewrite string_app_assoc.
Qed.

Lemma low_digits x :
  (x `div` 1000) `mod` 10 = ((x `mod` 10000) `div` 1000) `mod` 10
  ∧ (x `div` 100) `mod` 10 = ((x `mod` 10000) `div` 100) `mod` 10
  ∧ (x `div` 10) `mod` 10 = ((x `mod` 10000) `div` 10) `mod` 10
  ∧ x `mod` 10 = (x `mod` 10000) `mod` 10.
Proof.
  pose proof (N.div_mod x 10000) as Hx.
  remember (x `div` 10000) as q eqn:Hq. remember (x `mod` 10000) as r eqn:Hr.
  clear Hq Hr. specialize (Hx ltac:(done)). repeat split.
  - replace x with (r + (q * 10) * 1000) by lia.
    by rewrite N.div_add, N.Div0.mod_add.
  - replace x with (r + (q * 100) * 100) by lia.
    rewrite N.div_add by done.
    replace (q * 100) with (q * 10 * 10) by lia. by rewrite N.Div0.mod_add.
  - replace x with (r + (q * 1000) * 10) by lia.
    rewrite N.div_add by done.
    replace (q * 1000) with (q * 100 * 10) by lia. by rewrite N.Div0.mod_add.
  - replace x with (r + (q * 1000) * 10) by lia. by rewrite N.Div0.mod_add.
Qed.

Lemma pretty_N_go_low4 x s :
  1000 ≤ x →
  pretty_N_go x s = pretty_N_go (x `div` 10000) (low4 (x `mod` 10000) s).
Proof.
  intros Hx.
  assert (0 < x `div` 10 ∧ 0 < (x `div` 10) `div` 10
          ∧ 0 < ((x `div` 10) `div` 10) `div` 10) as (H1 & H2 & H3).
  { rewrite !N.Div0.div_div. repeat split; apply N.div_str_pos; lia. }
  rewrite (pretty_N_go_step x) by lia.
  rewrite (pretty_N_go_step (x `div` 10)) by done.
  rewrite (pretty_N_go_step ((x `div` 10) `div` 10)) by done.
  rewrite (pretty_N_go_step (((x `div` 10) `div` 10) `div` 10)) by done.
  rewrite !N.Div0.div_div.
  change (10 * (10 * 10)) with 1000. change (10 * 10) with 100.
  change (1000 * 10) with 10000. unfold low4.
  by destruct (low_digits x) as (-> & -> & -> & ->).
Qed.
End decimal.

(** ** [default_idx2subpath] *)

Section default_idx2subpath_facts.
Local Open Scope N_scope.

Lemma pretty_N_char_not_sep x : pretty_N_char x ≠ "/"%char.
Proof. unfold pretty_N_char. by repeat case_match. Qed.

Lemma low4_length y : String.length (low4 y "") = 4%nat.
Proof. done. Qed.

Lemma low4_starts y s : string_starts_with_sep (low4 y s) = false.
Proof.
  unfold low4. simpl. pose proof (pretty_N_char_not_sep ((y `div` 1000) `mod` 10)).
  destruct (pretty_N_char _) as [[] [] [] [] [] [] [] []]; done.
Qed.

Lemma low4_ends y : string_ends_with_sep (low4 y "") = false.
Proof.
  unfold low4. simpl. apply bool_decide_eq_false, pretty_N_char_not_sep.
Qed.

Lemma pretty_N_go_starts x s :
  string_starts_with_sep s = false → string_starts_with_sep (pretty_N_go x s) = false.
Proof.
  revert s. induction (N.lt_wf_0 x) as [x _ IH]; intros s Hs.
  destruct (decide (x = 0)) as [->|Hx]; [by rewrite pretty_N_go_0|].
  rewrite pretty_N_go_step by lia. apply IH; [apply N.div_lt; lia|].
  simpl. pose proof (pretty_N_char_not_sep (x `mod` 10)).
  destruct (pretty_N_char _) as [[] [] [] [] [] [] [] []]; done.
Qed.

Lemma py_str_int_pos x : 0 < x → py_str_int (Z.of_N x) = pretty_N_go x "".
Proof. destruct x as [|p]; [lia|]. done. Qed.

Lemma pretty_N_go_digit y s :
  0 < y < 10 → pretty_N_go y s = String (pretty_N_char (y `mod` 10)) s.
Proof.
  intros Hy. rewrite pretty_N_go_step by lia.
  rewrite (N.div_small y 10) by lia. apply pretty_N_go_0.
Qed.

(** Below 10000 the padded string is exactly the four low digits. *)
Lemma format_0d_small y : y < 10000 → format_0d 4 (Z.of_N y) = low4 y "".
Proof.
  intros Hy. destruct (decide (y = 0)) as [->|Hy0]; [done|].
  unfold format_0d. rewrite decide_False by lia. rewrite py_str_int_pos by lia.
  destruct (decide (1000 ≤ y)) as [H3|H3].
  { rewrite pretty_N_go_low4 by done.
    rewrite (N.div_small y 10000), (N.mod_small y 10000), pretty_N_go_0 by lia.
    done. }
  unfold low4. rewrite (N.div_small y 1000) by lia.
  destruct (decide (100 ≤ y)) as [H2|H2].
  { rewrite (pretty_N_go_step y) by lia.
    rewrite (pretty_N_go_step (y `div` 10)) by (apply N.div_str_pos; lia).
    rewrite pretty_N_go_digit; [by rewrite !N.Div0.div_div|].
    rewrite N.Div0.div_div. split; [apply N.div_str_pos; lia|].
    apply N.Div0.div_lt_upper_bound. lia. }
  rewrite (N.div_small y 100) by lia.
  destruct (decide (10 ≤ y)) as [H1|H1].
  { rewrite (pretty_N_go_step y) by lia.
    rewrite pretty_N_go_digit; [done|].
    split; [apply N.div_str_pos; lia|]. apply N.Div0.div_lt_upper_bound. lia. }
  rewrite (N.div_small y 10) by lia.
  by rewrite pretty_N_go_digit by lia.
Qed.

Lemma format_0d_large x :
  10000 ≤ x →
  format_0d 4 (Z.of_N x) = py_str_int (Z.of_N x) ∧
  py_str_int (Z.of_N x) = pretty_N_go (x `div` 10000) "" +:+ low4 (x `mod` 10000) "".
Proof.
  intros Hx. rewrite py_str_int_pos by lia.
  rewrite <-pretty_N_go_app, <-pretty_N_go_low4 by lia. split; [|done].
  unfold format_0d. rewrite decide_False by lia. rewrite py_str_int_pos by lia.
  rewrite (pretty_N_go_low4 x), pretty_N_go_app, string_app_length by lia.
  rewrite low4_length. by replace (4 - _)%nat with 0%nat by lia.
Qed.

Lemma os_path_join_low4 y b :
  string_starts_with_sep b = false →
  os_path_join (low4 y "") b = low4 y "" +:+ "/" +:+ b.
Proof.
  intros Hb. unfold os_path_join. rewrite Hb, low4_ends. done.
Qed.
End default_idx2subpath_facts.



Example default_idx2subpath_5 : default_idx2subpath 5 = "0005/0005".
Proof. reflexivity. Qed.

Example default_idx2subpath_12345 : default_idx2subpath 12345 = "2345/12345".
Proof. reflexivity. Qed.

(** ** The error monad *)

Lemma bind_Ok {A B : Type} (m : result A) (k : A → result B) (b : B) :
  m ≫= k = Ok b ↔ ∃ a, m = Ok a ∧ k a = Ok b.
Proof.
  destruct m as [a|e]; simpl.
  - split; [by exists a|]. by intros (a' & [= <-] & ?).
  - split; [done|]. by intros (? & ? & ?).
Qed.

(** ** [core/registry.py] *)

(** C4. [get_forward_proc_func] returns the entry registered under
    ["forward_batch_only"] when [func_name] is [None], returns the function
    registered under [func_name] when that is a registered key, raises
    [ValueError] exactly when [func_name] is not [None] and is not a key, and
    leaves the registry as it was. *)
Theorem get_forward_proc_func_spec {func : Type} (d : gmap string func)
    (func_name : option string) :
  (∀ f, d !! "forward_batch_only" = Some f →
        CoreRegistry.get_forward_proc_func None d = (Ok f, d))
  ∧ (∀ name f, d !! name = Some f →
        CoreRegistry.get_forward_proc_func (Some name) d = (Ok f, d))
  ∧ ((CoreRegistry.get_forward_proc_func func_name d).1 = Raise ValueError
     ↔ ∃ name, func_name = Some name ∧ d !! name = None)
  ∧ (CoreRegistry.get_forward_proc_func func_name d).2 = d.
Proof.
  unfold CoreRegistry.get_forward_proc_func, dict_contains, dict_getitem.
  split_and!.
  - by intros f ->.
  - intros name f Hf. rewrite Hf. by rewrite bool_decide_eq_true_2.
  - destruct func_name as [name|]; simpl.
    + destruct (d !! name) as [f|] eqn:Hf.
      * rewrite bool_decide_eq_true_2 by done. simpl. split; [done|].
        intros (? & [= <-] & ?). congruence.
      * rewrite bool_decide_eq_false_2 by (by intros [??]). simpl. naive_solver.
    + destruct (d !! "forward_batch_only"); simpl; split; try done;
        by intros (? & ? & ?).
  - destruct func_name as [name|]; [|done]. by case_bool_decide.
Qed.

(** With nothing registered under ["forward_batch_only"], the [None] lookup
    fails in the dictionary access, with [KeyError]. *)
Lemma get_forward_proc_func_default_missing {func : Type} (d : gmap string func) :
  d !! "forward_batch_only" = None →
  CoreRegistry.get_forward_proc_func None d = (Raise KeyError, d).
Proof. unfold CoreRegistry.get_forward_proc_func, dict_getitem. by intros ->. Qed.

(** ** [datasets/registry.py] *)



(** ** Wrappers: samples and lengths *)

Section wrapper_facts.
Context {image elt : Type}.

Abbreviation valueT := (@value image elt).
Abbreviation datasetT := (@dataset image elt).

Lemma base_getitem_Ok (st : nat → datasetT) w index sample target supp :
  base_getitem st w index = Ok (sample, target, supp)
  ↔ ds_getitem (st (org_dataset w)) index = Ok [sample; target] ∧ supp = ∅.
Proof.
  unfold base_getitem. rewrite bind_Ok. split.
  - intros (item & Hitem & Hm).
    destruct item as [|s [|t [|??]]]; simplify_eq. done.
  - intros [Hitem ->]. by exists [sample; target].
Qed.

Lemma set_transform_len tr (ds : datasetT) : ds_len (set_transform tr ds) = ds_len ds.
Proof. done. Qed.
End wrapper_facts.

(** C3. [BaseDatasetWrapper.__getitem__] returns the original dataset's
    [(sample, target)] pair extended with an empty supplementary dictionary,
    and the length of every wrapper class is the length of the dataset it
    wraps (for the SSKD wrapper also across the mutation its constructor
    performs). *)
Theorem wrappers_preserve_samples_and_length {image elt : Type}
    (st : nat → @dataset image elt) (org : nat) (index : Z) :
  (∀ sample target,
      ds_getitem (st org) index = Ok [sample; target] →
      base_getitem st (base_init org) index = Ok (sample, target, ∅))
  ∧ (∀ sample target supp,
      base_getitem st (base_init org) index = Ok (sample, target, supp) →
      ds_getitem (st org) index = Ok [sample; target] ∧ supp = ∅)
  ∧ base_len st (base_init org) = ds_len (st org)
  ∧ (∀ dir f e, cacheable_len st (cacheable_init org dir f e) = ds_len (st org))
  ∧ (∀ w : CRDDatasetWrapper, crd_len st w = ds_len (st (org_dataset (crd_base w))))
  ∧ (∀ n m ratio g w g',
      crd_init st org n m ratio g = (Ok w, g') → crd_len st w = ds_len (st org))
  ∧ sskd_len (sskd_init st org).2 (sskd_init st org).1 = ds_len (st org)
  ∧ leaf_len st (leaf_init org) = ds_len (st org).
Proof.
  split_and!; try done.
  - intros sample target Hitem. by apply base_getitem_Ok.
  - intros sample target supp Hw. by apply base_getitem_Ok in Hw.
  - intros n m ratio g w g' Hinit. unfold crd_init in Hinit.
    unfold mbind, rand_bind, lift, mret, rand_ret in Hinit.
    repeat (case_match; simplify_eq); done.
  - unfold sskd_len, base_len, sskd_init. simpl. by rewrite fn_lookup_insert.
Qed.

(** ** [CacheableDataset] *)

(** C6. Whenever the wrapped dataset yields [(sample, target)] at [index] and
    the cache file, if there is one, loads, [CacheableDataset.__getitem__]
    returns that sample and target with a supplementary dictionary that holds
    ['cache_file_path'], the join of the cache directory with
    [idx2subath_func(index) + ext], and holds ['cached_data'] if and only if a
    file exists at that path, in which case it is what [torch.load] returns for
    the file. *)
Theorem cacheable_getitem_spec {image elt : Type} (st : nat → @dataset image elt)
    (fs : filesystem) (w : CacheableDataset) (index : Z) (sample target : value) :
  let path := os_path_join (cache_dir_path w) (idx2subath_func w index +:+ ext w) in
  ds_getitem (st (org_dataset (cacheable_base w))) index = Ok [sample; target] →
  (check_if_exists fs path = true → is_ok (torch_load fs path)) →
  ∃ supp,
    cacheable_getitem st fs w index = Ok (sample, target, supp)
    ∧ supp !! "cache_file_path" = Some (VStr path)
    ∧ (is_Some (supp !! "cached_data") ↔ check_if_exists fs path = true)
    ∧ (∀ data, supp !! "cached_data" = Some data → torch_load fs path = Ok data)
    ∧ (∀ k, k ≠ "cached_data" → k ≠ "cache_file_path" → supp !! k = None).
Proof.
  intros path Hitem Hload. unfold cacheable_getitem.
  assert (base_getitem st (cacheable_base w) index = Ok (sample, target, ∅)) as ->
    by by apply base_getitem_Ok.
  simpl. fold path. destruct (check_if_exists fs path) eqn:Hex.
  - destruct (Hload eq_refl) as [data Hdata]. rewrite Hdata. simpl.
    eexists. split; [done|]. split_and!.
    + by rewrite lookup_insert_eq.
    + rewrite lookup_insert_ne, lookup_insert_eq by done. split; eauto.
    + intros data'. rewrite lookup_insert_ne, lookup_insert_eq by done. congruence.
    + intros k ??. by rewrite !lookup_insert_ne, lookup_empty by done.
  - simpl. eexists. split; [done|]. split_and!.
    + by rewrite lookup_insert_eq.
    + rewrite lookup_insert_ne, lookup_empty by done. split; [by intros [??]|done].
    + intros data. by rewrite lookup_insert_ne, lookup_empty by done.
    + intros k ??. by rewrite !lookup_insert_ne, lookup_empty by done.
Qed.

(** ** [SSKDDatasetWrapper] *)

(** C8. Constructing an [SSKDDatasetWrapper] moves the wrapped dataset's
    [transform] onto the wrapper and leaves [None] behind: the dataset object
    changes exactly when it had a transform, its other attributes and every
    other object of the store stay as they were. *)
Theorem sskd_init_moves_transform {image elt : Type} (st : nat → @dataset image elt)
    (org : nat) :
  let w := (sskd_init st org).1 in
  let st' := (sskd_init st org).2 in
  ds_transform (st' org) = None
  ∧ sskd_transform w = ds_transform (st org)
  ∧ org_dataset (sskd_base w) = org
  ∧ (ds_transform (st org) ≠ None → st' org ≠ st org)
  ∧ ds_classes (st' org) = ds_classes (st org)
  ∧ ds_targets (st' org) = ds_targets (st org)
  ∧ ds_len (st' org) = ds_len (st org)
  ∧ ds_item (st' org) = ds_item (st org)
  ∧ (∀ other, other ≠ org → st' other = st other).
Proof.
  simpl. rewrite !fn_lookup_insert. split_and!; try done.
  - intros Htr Heq. apply Htr. by rewrite <-Heq.
  - intros other Hne. by rewrite fn_lookup_insert_ne.
Qed.

(** C7. On a wrapper built by [SSKDDatasetWrapper.__init__], whenever the
    stored transform turns the untransformed sample and its rotations by 90,
    180 and 270 degrees (with [expand=True]) into tensors of one shape,
    [__getitem__] returns the original target and the stack of these four
    tensors in that order; its first dimension has size 4. *)
Theorem sskd_getitem_spec {image elt : Type} (rotate : image → Z → bool → image)
    (st : nat → @dataset image elt) (org : nat) (index : Z)
    (tr : value → result value) (im : image) (target : value)
    (t0 t90 t180 t270 : tensor) :
  let w := (sskd_init st org).1 in
  let st' := (sskd_init st org).2 in
  ds_transform (st org) = Some tr →
  ds_item (st org) None index = Ok [VImage im; target] →
  tr (VImage im) = Ok (VTensor t0) →
  tr (VImage (rotate im 90 true)) = Ok (VTensor t90) →
  tr (VImage (rotate im 180 true)) = Ok (VTensor t180) →
  tr (VImage (rotate im 270 true)) = Ok (VTensor t270) →
  shape t90 = shape t0 → shape t180 = shape t0 → shape t270 = shape t0 →
  ∃ stacked,
    sskd_getitem rotate st' w index = Ok (VTensor stacked, target, ∅)
    ∧ torch_stack [t0; t90; t180; t270] = Ok stacked
    ∧ shape stacked = 4%nat :: shape t0
    ∧ storage stacked = storage t0 ++ storage t90 ++ storage t180 ++ storage t270.
Proof.
  intros w st' Htr Hitem H0 H90 H180 H270 Hs90 Hs180 Hs270.
  assert (torch_stack [t0; t90; t180; t270]
          = Ok (Tensor (4%nat :: shape t0)
                  (storage t0 ++ storage t90 ++ storage t180 ++ storage t270))) as Hstack.
  { unfold torch_stack. simpl. rewrite Hs90, Hs180, Hs270.
    rewrite !bool_decide_eq_true_2 by done. simpl. by rewrite app_nil_r. }
  eexists. split; [|split; [exact Hstack|done]].
  unfold sskd_getitem.
  assert (base_getitem st' (sskd_base w) index = Ok (VImage im, target, ∅)) as ->.
  { apply base_getitem_Ok. split; [|done]. unfold ds_getitem, st', w. simpl.
    rewrite fn_lookup_insert. done. }
  cbn -[torch_stack]. rewrite Htr. cbn -[torch_stack].
  rewrite H0. cbn -[torch_stack]. rewrite H90. cbn -[torch_stack].
  rewrite H180. cbn -[torch_stack]. rewrite H270. cbn -[torch_stack].
  by rewrite Hstack.
Qed.

(** ** [CRDDatasetWrapper.__init__]: the class index *)

Lemma py_index_nonneg n i : 0 ≤ i < Z.of_nat n → py_index n i = Ok (Z.to_nat i).
Proof. intros Hi. unfold py_index. by rewrite decide_True. Qed.

Lemma py_getitem_nonneg {A : Type} (l : list A) (i : nat) x :
  l !! i = Some x → py_getitem l (Z.of_nat i) = Ok x.
Proof.
  intros Hx. unfold py_getitem. rewrite py_index_nonneg.
  - simpl. by rewrite Nat2Z.id, Hx.
  - apply lookup_lt_Some in Hx. lia.
Qed.

Section class_index.
Variables (labels : list Z) (num_classes num_samples : nat).
Hypothesis Hvalid : valid_labels labels num_classes num_samples.

Let step := (λ (acc : result (list (list Z))) (i : Z),
               cls ← acc; append_positive labels cls i).

Lemma positives_upto_length k : length (positives_upto labels num_classes k) = num_classes.
Proof. unfold positives_upto. by rewrite length_fmap, length_seq. Qed.

Lemma append_positive_upto k :
  (k < num_samples)%nat →
  append_positive labels (positives_upto labels num_classes k) (Z.of_nat k)
  = Ok (positives_upto labels num_classes (S k)).
Proof.
  intros Hk. destruct (Hvalid k Hk) as (l & Hl & Hrange).
  unfold append_positive. rewrite (py_getitem_nonneg _ _ _ Hl). simpl.
  rewrite positives_upto_length.
  rewrite py_index_nonneg by done. simpl. f_equal.
  apply list_eq. intros c. unfold positives_upto.
  destruct (decide (c < num_classes)%nat) as [Hc|Hc].
  2:{ rewrite !(lookup_ge_None_2 _ c); [done|..];
      rewrite ?length_alter, length_fmap, length_seq; lia. }
  rewrite list_lookup_fmap, lookup_seq_lt by done. simpl.
  unfold py_range. rewrite seqZ_S, list.filter_app, Z.add_0_l.
  destruct (decide (c = Z.to_nat l)) as [->|Hne].
  - rewrite list_lookup_alter_eq, list_lookup_fmap, lookup_seq_lt by done. simpl.
    rewrite (filter_cons_True _ (Z.of_nat k)); [done|].
    rewrite Nat2Z.id, Hl. f_equal. lia.
  - rewrite list_lookup_alter_ne, list_lookup_fmap, lookup_seq_lt by done. simpl.
    rewrite (filter_cons_False _ (Z.of_nat k)); [by rewrite app_nil_r|].
    rewrite Nat2Z.id, Hl. intros [= ->]. lia.
Qed.

Lemma build_positives_upto k :
  (k ≤ num_samples)%nat →
  foldl step (Ok (replicate num_classes [])) (py_range (Z.of_nat k))
  = Ok (positives_upto labels num_classes k).
Proof.
  induction k as [|k IH]; intros Hk.
  - simpl. f_equal. unfold positives_upto. apply list_eq. intros c.
    destruct (decide (c < num_classes)%nat) as [Hc|Hc].
    + rewrite lookup_replicate_2, list_lookup_fmap, lookup_seq_lt by done. done.
    + rewrite !(lookup_ge_None_2 _ c); [done|..];
        rewrite ?length_replicate, ?length_fmap, ?length_seq; lia.
  - unfold py_range. rewrite seqZ_S, foldl_app. fold (py_range (Z.of_nat k)).
    rewrite IH by lia. simpl. apply append_positive_upto. lia.
Qed.

Lemma build_positives_spec :
  build_positives labels num_classes num_samples
  = Ok (class_positives labels num_samples <$> seq 0 num_classes).
Proof. exact (build_positives_upto num_samples (Nat.le_refl _)). Qed.
End class_index.

Lemma class_positives_elem labels ns c i :
  i ∈ class_positives labels ns c
  ↔ 0 ≤ i < Z.of_nat ns ∧ labels !! Z.to_nat i = Some (Z.of_nat c).
Proof.
  unfold class_positives, py_range. rewrite list_elem_of_filter, elem_of_seqZ.
  split; intros [??]; split; (done || lia).
Qed.

Lemma class_positives_NoDup labels ns c : NoDup (class_positives labels ns c).
Proof. apply list.NoDup_filter, NoDup_seqZ. Qed.

(** The inner loop concatenates the other classes' lists. *)
Lemma negatives_of_concat (positives : list (list Z)) nc i :
  negatives_of positives nc i
  = concat ((λ j, positives !!! j) <$> filter (λ j, j ≠ i) (seq 0 nc)).
Proof.
  unfold negatives_of. generalize (seq 0 nc). intros js.
  rewrite <-(app_nil_l (concat _)). generalize (@nil Z) as acc.
  induction js as [|j js IH]; intros acc; simpl; [by rewrite app_nil_r|].
  rewrite IH. destruct (decide (j = i)) as [->|Hne].
  - by rewrite filter_cons_False by (by intros ?).
  - rewrite filter_cons_True by done. simpl. by rewrite app_assoc.
Qed.

Lemma elem_of_concat {A : Type} (x : A) (ls : list (list A)) :
  x ∈ concat ls ↔ ∃ l, x ∈ l ∧ l ∈ ls.
Proof.
  induction ls as [|l ls IH]; simpl.
  - split; [by intros ?%not_elem_of_nil|]. by intros (? & ? & ?%not_elem_of_nil).
  - rewrite elem_of_app, IH. split.
    + intros [Hx|(l' & Hx & Hl')]; [exists l; split; [done|left]|].
      exists l'. split; [done|by right].
    + intros (l' & Hx & Hl'). apply elem_of_cons in Hl' as [->|Hl']; [by left|].
      right. by exists l'.
Qed.

Lemma NoDup_concat_disjoint {A B : Type} (f : B → list A) (js : list B) :
  NoDup js →
  (∀ j, j ∈ js → NoDup (f j)) →
  (∀ j j' x, j ∈ js → j' ∈ js → x ∈ f j → x ∈ f j' → j = j') →
  NoDup (concat (f <$> js)).
Proof.
  induction js as [|j js IH]; intros Hjs Hnd Hdisj; simpl; [constructor|].
  apply list.NoDup_cons in Hjs as [Hj Hjs]. apply list.NoDup_app. split_and!.
  - apply Hnd. left.
  - intros x Hx Hx'. apply elem_of_concat in Hx' as (l & Hx' & Hl).
    apply list_elem_of_fmap in Hl as (j' & -> & Hj').
    assert (j = j') as <- by (eapply Hdisj; [left|by right|done..]). done.
  - apply IH; [done|intros; apply Hnd; by right|].
    intros j1 j2 x ??. apply Hdisj; by right.
Qed.

Section class_negatives.
Variables (labels : list Z) (num_classes num_samples : nat).
Hypothesis Hvalid : valid_labels labels num_classes num_samples.

Let positives := class_positives labels num_samples <$> seq 0 num_classes.

Lemma positives_lookup_total j :
  (j < num_classes)%nat → positives !!! j = class_positives labels num_samples j.
Proof.
  intros Hj. unfold positives. apply list_lookup_total_correct.
  by rewrite list_lookup_fmap, lookup_seq_lt.
Qed.

Lemma negatives_of_elem c i :
  i ∈ negatives_of positives num_classes c
  ↔ 0 ≤ i < Z.of_nat num_samples ∧ labels !! Z.to_nat i ≠ Some (Z.of_nat c).
Proof.
  rewrite negatives_of_concat, elem_of_concat. split.
  - intros (l & Hi & Hl). apply list_elem_of_fmap in Hl as (j & -> & Hj).
    apply list_elem_of_filter in Hj as [Hjc Hj]. apply elem_of_seq in Hj.
    rewrite positives_lookup_total in Hi by lia.
    apply class_positives_elem in Hi as [Hi Hlab]. split; [done|].
    rewrite Hlab. intros [= ?]. lia.
  - intros [Hi Hlab]. destruct (Hvalid (Z.to_nat i)) as (l & Hl & Hrange); [lia|].
    exists (positives !!! Z.to_nat l). split.
    + rewrite positives_lookup_total by lia. apply class_positives_elem.
      split; [done|]. rewrite Hl. f_equal. lia.
    + apply list_elem_of_fmap. exists (Z.to_nat l). split; [done|].
      apply list_elem_of_filter. split.
      * intros <-. apply Hlab. rewrite Hl. f_equal. lia.
      * apply elem_of_seq. lia.
Qed.

Lemma negatives_of_NoDup c : NoDup (negatives_of positives num_classes c).
Proof.
  rewrite negatives_of_concat. apply NoDup_concat_disjoint.
  - apply list.NoDup_filter, NoDup_seq.
  - intros j [_ Hj%elem_of_seq]%list_elem_of_filter.
    rewrite positives_lookup_total by lia. apply class_positives_NoDup.
  - intros j j' x [_ Hj%elem_of_seq]%list_elem_of_filter
      [_ Hj'%elem_of_seq]%list_elem_of_filter.
    rewrite !positives_lookup_total by lia.
    intros [_ H1]%class_positives_elem [_ H2]%class_positives_elem.
    rewrite H1 in H2. injection H2. lia.
Qed.

Lemma class_partition c :
  class_positives labels num_samples c ++ negatives_of positives num_classes c
  ≡ₚ py_range (Z.of_nat num_samples).
Proof.
  apply list.NoDup_Permutation.
  - apply list.NoDup_app. split_and!.
    + apply class_positives_NoDup.
    + intros i [_ Hi]%class_positives_elem [_ Hn]%negatives_of_elem. done.
    + apply negatives_of_NoDup.
  - apply NoDup_seqZ.
  - intros i. rewrite elem_of_app, class_positives_elem, negatives_of_elem.
    unfold py_range. rewrite elem_of_seqZ.
    destruct (decide (labels !! Z.to_nat i = Some (Z.of_nat c))); split;
      intros; (lia || (try tauto)).
    all: destruct H as [[??]|[??]]; lia.
Qed.
End class_negatives.

Lemma build_negatives_lookup (positives : list (list Z)) nc c :
  (c < nc)%nat → build_negatives positives nc !! c = Some (negatives_of positives nc c).
Proof. intros Hc. unfold build_negatives. by rewrite list_lookup_fmap, lookup_seq_lt. Qed.

Lemma build_negatives_length (positives : list (list Z)) nc :
  length (build_negatives positives nc) = nc.
Proof. unfold build_negatives. by rewrite length_fmap, length_seq. Qed.

(** [__init__] without subsampling. *)
Lemma crd_init_plain {image elt : Type} (st : nat → @dataset image elt) org n m ratio g
    positives :
  ratio_in_unit ratio = false →
  build_positives (ds_targets (st org)) (length (ds_classes (st org))) (ds_len (st org))
  = Ok positives →
  crd_init st org n m ratio g
  = (Ok {| crd_base := base_init org; num_negative_samples := n; mode := m;
           cls_positives := positives;
           cls_negatives := build_negatives positives (length (ds_classes (st org))) |},
     g).
Proof.
  intros Hratio Hpos. unfold crd_init. rewrite Hratio, Hpos. done.
Qed.

(** C1. Without ratio subsampling, [CRDDatasetWrapper.__init__] on a dataset
    whose labels are class indices partitions the sample indices by class: for
    every class [c], [cls_positives[c]] holds exactly the indices labelled [c]
    and [cls_negatives[c]] exactly the indices labelled otherwise, each once;
    the two arrays are disjoint and together a rearrangement of
    [range(num_samples)]. *)
Theorem crd_init_partitions_by_class {image elt : Type} (st : nat → @dataset image elt)
    (org : nat) (n : Z) (m : string) (ratio : float) (g : rng) :
  let labels := ds_targets (st org) in
  let num_classes := length (ds_classes (st org)) in
  let num_samples := ds_len (st org) in
  valid_labels labels num_classes num_samples →
  ratio_in_unit ratio = false →
  ∃ w,
    crd_init st org n m ratio g = (Ok w, g)
    ∧ length (cls_positives w) = num_classes
    ∧ length (cls_negatives w) = num_classes
    ∧ ∀ c, (c < num_classes)%nat →
        ∃ P N,
          cls_positives w !! c = Some P ∧ cls_negatives w !! c = Some N
          ∧ P = class_positives labels num_samples c
          ∧ (∀ i, i ∈ P ↔ 0 ≤ i < Z.of_nat num_samples
                          ∧ labels !! Z.to_nat i = Some (Z.of_nat c))
          ∧ (∀ i, i ∈ N ↔ 0 ≤ i < Z.of_nat num_samples
                          ∧ labels !! Z.to_nat i ≠ Some (Z.of_nat c))
          ∧ NoDup P ∧ NoDup N
          ∧ (∀ i, i ∈ P → i ∉ N)
          ∧ P ++ N ≡ₚ py_range (Z.of_nat num_samples).
Proof.
  intros labels num_classes num_samples Hvalid Hratio.
  pose proof (build_positives_spec labels num_classes num_samples Hvalid) as Hpos.
  eexists. split; [by apply crd_init_plain|]. simpl.
  split; [by rewrite length_fmap, length_seq|].
  split; [apply build_negatives_length|].
  intros c Hc. eexists _, _.
  split; [by rewrite list_lookup_fmap, lookup_seq_lt|].
  split; [by apply build_negatives_lookup|].
  split_and!.
  - done.
  - apply class_positives_elem.
  - by apply negatives_of_elem.
  - apply class_positives_NoDup.
  - apply negatives_of_NoDup.
  - intros i [_ Hi]%class_positives_elem [_ Hn]%(negatives_of_elem _ _ _ Hvalid). done.
  - by apply class_partition.
Qed.

(** ** Floats: the subsample size is never negative *)

Lemma binary_round_aux_nonneg m e l : sf_nonneg (binary_round_aux prec emax false m e l).
Proof.
  unfold binary_round_aux. destruct (shr_fexp _ _ _ _ _) as [mrs e'].
  destruct (shr_fexp _ _ _ _ _) as [mrs' e'']. destruct (shr_m mrs'); [done| |done].
  by destruct (_ <=? _)%Z.
Qed.

Lemma SFmul_nonneg x y : sf_nonneg x → sf_nonneg y → sf_nonneg (SFmul prec emax x y).
Proof.
  destruct x as [sx|sx| |sx mx ex], y as [sy|sy| |sy my ey]; simpl; try done.
  destruct sx, sy; try done. intros _ _. apply binary_round_aux_nonneg.
Qed.

Lemma float_of_len_nonneg k : sf_nonneg (Prim2SF (float_of_len k)).
Proof.
  unfold float_of_len. rewrite FloatAxioms.of_uint63_spec.
  pose proof (Uint63.to_Z_bounded (Uint63.of_Z (Z.of_nat k))) as [Hlo _].
  destruct (Uint63.to_Z _) as [|p|p]; [done| |lia]. simpl.
  unfold binary_round. destruct (shl_align _ _ _) as [mz ez].
  apply binary_round_aux_nonneg.
Qed.

Lemma ratio_in_unit_nonneg ratio : ratio_in_unit ratio = true → sf_nonneg (Prim2SF ratio).
Proof.
  unfold ratio_in_unit. intros [Hlt _]%andb_true_iff. rewrite FloatAxioms.ltb_spec in Hlt.
  change (Prim2SF 0) with (S754_zero false) in Hlt.
  destruct (Prim2SF ratio) as [s|s| |[] m e]; done.
Qed.

Lemma py_int_of_float_nonneg x n :
  sf_nonneg (Prim2SF x) → py_int_of_float x = Ok n → 0 ≤ n.
Proof.
  unfold py_int_of_float. destruct (Prim2SF x) as [s|s| |s m e]; try done.
  - by intros _ [= <-].
  - destruct s; [done|]. intros _ [= <-]. case_decide.
    + apply Z.shiftl_nonneg. lia.
    + apply Z.shiftr_nonneg. lia.
Qed.

Lemma subsample_size_nonneg k ratio n :
  ratio_in_unit ratio = true →
  py_int_of_float (PrimFloat.mul (float_of_len k) ratio) = Ok n → 0 ≤ n.
Proof.
  intros Hratio. apply py_int_of_float_nonneg. rewrite FloatAxioms.mul_spec.
  apply SFmul_nonneg; [apply float_of_len_nonneg|by apply ratio_in_unit_nonneg].
Qed.

(** ** Floats: the subsample size is always defined *)

Lemma iter_pos_nat {A : Type} (f : A → A) (p : positive) (x : A) :
  SpecFloat.iter_pos f p x = Nat.iter (Pos.to_nat p) f x.
Proof.
  revert x. induction p as [p IH|p IH|]; intros x; cbn [SpecFloat.iter_pos].
  - rewrite !IH, Pos2Nat.inj_xI.
    replace (S (2 * Pos.to_nat p)) with (Pos.to_nat p + (Pos.to_nat p + 1))%nat by lia.
    by rewrite !Nat.iter_add.
  - rewrite !IH, Pos2Nat.inj_xO.
    replace (2 * Pos.to_nat p)%nat with (Pos.to_nat p + Pos.to_nat p)%nat by lia.
    by rewrite Nat.iter_add.
  - done.
Qed.

Lemma digits2_pos_succ p : (digits2_pos (Pos.succ p) ≤ Pos.succ (digits2_pos p))%positive.
Proof. induction p as [p IH|p IH|]; simpl; lia. Qed.

Lemma digits2_pos_size p : digits2_pos p = Pos.size p.
Proof. induction p as [p IH|p IH|]; cbn; by rewrite ?IH. Qed.

Lemma digits2_pos_lt_pow p k : 0 ≤ k → Z.pos p < 2 ^ k → Z.pos (digits2_pos p) ≤ k.
Proof.
  intros Hk Hp. rewrite digits2_pos_size.
  pose proof (Pos.size_le p) as Hle.
  apply Pos2Z.pos_le_pos in Hle. rewrite Pos2Z.inj_pow in Hle.
  destruct (decide (Z.pos (Pos.size p) ≤ k)) as [?|Hgt]; [done|].
  assert (2 ^ Z.succ k ≤ 2 ^ Z.pos (Pos.size p)) as Hpow by (apply Z.pow_le_mono_r; lia).
  rewrite Z.pow_succ_r in Hpow by lia. lia.
Qed.

Lemma digits2_pos_mul p q :
  Z.pos (digits2_pos (p * q)) ≤ Z.pos (digits2_pos p) + Z.pos (digits2_pos q).
Proof.
  apply digits2_pos_lt_pow; [lia|]. rewrite Z.pow_add_r by lia.
  pose proof (Pos.size_gt p) as Hp. pose proof (Pos.size_gt q) as Hq.
  apply Pos2Z.pos_lt_pos in Hp, Hq. rewrite Pos2Z.inj_pow, <-digits2_pos_size in Hp, Hq.
  rewrite Pos2Z.inj_mul. apply Z.mul_lt_mono_nonneg; lia.
Qed.

Lemma digits2_pos_iter_xO p d :
  digits2_pos (Pos.iter xO p d) = (digits2_pos p + d)%positive.
Proof.
  induction d as [|d IH] using Pos.peano_ind.
  - cbn. lia.
  - rewrite Pos.iter_succ. cbn [digits2_pos]. rewrite IH. lia.
Qed.

Lemma Zdigits2_nonneg m : 0 ≤ Zdigits2 m.
Proof. by destruct m. Qed.

Lemma Zdigits2_succ m : 0 ≤ m → Zdigits2 (m + 1) ≤ Zdigits2 m + 1.
Proof.
  destruct m as [|p|p]; [done| |done]. intros _.
  change (Z.pos p + 1) with (Z.pos (p + 1)). rewrite Pos.add_1_r. cbn [Zdigits2].
  pose proof (digits2_pos_succ p). lia.
Qed.

Lemma shr_1_digits mrs :
  0 ≤ shr_m mrs →
  0 ≤ shr_m (shr_1 mrs) ∧ Zdigits2 (shr_m (shr_1 mrs)) = Z.max 0 (Zdigits2 (shr_m mrs) - 1).
Proof.
  destruct mrs as [m r s]. destruct m as [|[p|p|]|p]; cbn; intros ?; lia.
Qed.

Lemma shr_iter_digits n mrs :
  0 ≤ shr_m mrs →
  0 ≤ shr_m (Nat.iter n shr_1 mrs)
  ∧ Zdigits2 (shr_m (Nat.iter n shr_1 mrs)) = Z.max 0 (Zdigits2 (shr_m mrs) - Z.of_nat n).
Proof.
  intros Hm. induction n as [|n [IH1 IH2]].
  - cbn. pose proof (Zdigits2_nonneg (shr_m mrs)). lia.
  - change (Nat.iter (S n) shr_1 mrs) with (shr_1 (Nat.iter n shr_1 mrs)).
    destruct (shr_1_digits _ IH1) as [H1 H2].
    split; [done|]. rewrite H2, IH2. lia.
Qed.

Lemma shr_digits mrs e n :
  0 ≤ shr_m mrs →
  0 ≤ shr_m (shr mrs e n).1
  ∧ (shr mrs e n).2 = e + Z.max 0 n
  ∧ Zdigits2 (shr_m (shr mrs e n).1) = Z.max 0 (Zdigits2 (shr_m mrs) - Z.max 0 n).
Proof.
  intros Hm. pose proof (Zdigits2_nonneg (shr_m mrs)).
  destruct n as [|p|p]; cbn [shr fst snd]; [split_and!; lia| |split_and!; lia].
  rewrite iter_pos_nat. destruct (shr_iter_digits (Pos.to_nat p) mrs Hm) as [H1 H2].
  split_and!; [done|lia|]. rewrite H2. lia.
Qed.

Lemma shr_record_of_loc_m m l : shr_m (shr_record_of_loc m l) = m.
Proof. by destruct l as [|[]]. Qed.

Lemma fexp_binary64 e : fexp prec emax e = Z.max (e - 53) (-1074).
Proof. done. Qed.

Lemma shr_fexp_digits m e l :
  0 ≤ m →
  0 ≤ shr_m (shr_fexp prec emax m e l).1
  ∧ (shr_fexp prec emax m e l).2 = Z.max e (fexp prec emax (Zdigits2 m + e))
  ∧ Zdigits2 (shr_m (shr_fexp prec emax m e l).1)
    = Z.max 0 (Zdigits2 m - ((shr_fexp prec emax m e l).2 - e)).
Proof.
  intros Hm. unfold shr_fexp.
  destruct (shr_digits (shr_record_of_loc m l) e
              (fexp prec emax (Zdigits2 m + e) - e)) as (H1 & H2 & H3).
  { by rewrite shr_record_of_loc_m. }
  rewrite shr_record_of_loc_m in H3. split_and!; [done|lia|]. rewrite H3, H2. lia.
Qed.

Lemma round_nearest_even_digits m l :
  0 ≤ m →
  0 ≤ round_nearest_even m l ∧ Zdigits2 (round_nearest_even m l) ≤ Zdigits2 m + 1.
Proof.
  intros Hm. pose proof (Zdigits2_succ m Hm).
  destruct l as [|[]]; cbn [round_nearest_even]; try (split; lia).
  destruct (Z.even m); split; lia.
Qed.

(** Rounding a non-negative mantissa whose magnitude is far below the
    overflow threshold gives a zero or a finite float of the requested sign,
    of about the same magnitude. *)
Lemma binary_round_aux_finite s m e l :
  0 ≤ m → e ≤ 900 → Zdigits2 m + e ≤ 900 →
  binary_round_aux prec emax s m e l = S754_zero s
  ∨ ∃ m' e', binary_round_aux prec emax s m e l = S754_finite s m' e'
             ∧ e' ≤ Z.max e (Z.max (Zdigits2 m + e - 52) (-1074))
             ∧ Z.pos (digits2_pos m') + e' ≤ Z.max (Zdigits2 m + e + 1) (-1073).
Proof.
  intros Hm He HD. unfold binary_round_aux.
  destruct (shr_fexp_digits m e l Hm) as (H1 & H2 & H3).
  destruct (shr_fexp prec emax m e l) as [mrs1 e1]. cbn [fst snd] in *.
  destruct (round_nearest_even_digits (shr_m mrs1) (loc_of_shr_record mrs1) H1)
    as [Hr1 Hr2].
  set (r := round_nearest_even (shr_m mrs1) (loc_of_shr_record mrs1)) in *.
  destruct (shr_fexp_digits r e1 loc_Exact Hr1) as (H4 & H5 & H6).
  destruct (shr_fexp prec emax r e1 loc_Exact) as [mrs2 e2]. cbn [fst snd] in *.
  rewrite fexp_binary64 in H2, H5.
  pose proof (Zdigits2_nonneg m). pose proof (Zdigits2_nonneg r).
  destruct (shr_m mrs2) as [|m2|m2]; [by left| |lia]. right.
  cbn [Zdigits2] in H6.
  exists m2, e2. change (emax - prec) with 971.
  rewrite (proj2 (Z.leb_le e2 971)) by lia. split; [done|]. lia.
Qed.

Lemma shl_align_digits mx ex ex' :
  Z.pos (digits2_pos (shl_align mx ex ex').1) + (shl_align mx ex ex').2
  = Z.pos (digits2_pos mx) + ex
  ∧ (shl_align mx ex ex').2 ≤ ex.
Proof.
  unfold shl_align. destruct (ex' - ex) as [|d|d] eqn:Hd; cbn [fst snd]; [lia|lia|].
  rewrite digits2_pos_iter_xO. lia.
Qed.

Lemma binary_round_finite s mx ex :
  ex ≤ 900 → Z.pos (digits2_pos mx) + ex ≤ 900 →
  binary_round prec emax s mx ex = S754_zero s
  ∨ ∃ m' e', binary_round prec emax s mx ex = S754_finite s m' e'
             ∧ e' ≤ Z.max ex (Z.max (Z.pos (digits2_pos mx) + ex - 52) (-1074))
             ∧ Z.pos (digits2_pos m') + e' ≤ Z.max (Z.pos (digits2_pos mx) + ex + 1) (-1073).
Proof.
  intros He HD. unfold binary_round.
  destruct (shl_align_digits mx ex (fexp prec emax (Z.pos (digits2_pos mx) + ex)))
    as [H1 H2].
  destruct (shl_align mx ex _) as [mz ez]. cbn [fst snd] in *.
  destruct (binary_round_aux_finite s (Z.pos mz) ez loc_Exact) as [Hz|(m' & e' & Hf & ? & ?)];
    [lia|lia|cbn [Zdigits2]; lia|by left|].
  right. exists m', e'. cbn [Zdigits2] in *. split; [done|]. lia.
Qed.

(** The exact conversion of a list length. *)
Lemma float_of_len_spec k :
  Z.of_nat k < 2 ^ 63 →
  Prim2SF (float_of_len k) = binary_normalize prec emax (Z.of_nat k) 0 false.
Proof.
  intros Hk. unfold float_of_len.
  rewrite FloatAxioms.of_uint63_spec, Uint63.of_Z_spec, Z.mod_small; [done|].
  change wB with (2 ^ 63). lia.
Qed.

Lemma binary_normalize_len z :
  0 ≤ z < 2 ^ 63 →
  binary_normalize prec emax z 0 false = S754_zero false
  ∨ ∃ m e, binary_normalize prec emax z 0 false = S754_finite false m e
           ∧ e ≤ 11 ∧ Z.pos (digits2_pos m) + e ≤ 64.
Proof.
  intros [Hlo Hhi]. destruct z as [|p|p]; [by left| |lia]. simpl binary_normalize.
  assert (Z.pos (digits2_pos p) ≤ 63) by (by apply digits2_pos_lt_pow).
  destruct (binary_round_finite false p 0) as [Hz|(m & e & Hf & ? & ?)]; [lia|lia|by left|].
  right. exists m, e. split; [done|]. lia.
Qed.

Lemma ratio_in_unit_finite ratio :
  ratio_in_unit ratio = true →
  ∃ m e, Prim2SF ratio = S754_finite false m e
         ∧ e ≤ -52 ∧ Z.pos (digits2_pos m) + e ≤ 1.
Proof.
  unfold ratio_in_unit. intros [Hlo Hhi]%andb_true_iff.
  rewrite FloatAxioms.ltb_spec in Hlo, Hhi.
  change (Prim2SF 0) with (S754_zero false) in Hlo.
  change (Prim2SF 1) with (S754_finite false 4503599627370496 (-52)) in Hhi.
  pose proof (Prim2SF_valid ratio) as Hvalid.
  destruct (Prim2SF ratio) as [s|[]| |[] m e]; try (by simpl in * ).
  exists m, e. split; [done|].
  unfold valid_binary, bounded in Hvalid. apply andb_true_iff in Hvalid as [Hcan _].
  unfold canonical_mantissa in Hcan. apply Z.eqb_eq in Hcan.
  rewrite fexp_binary64 in Hcan.
  unfold SFltb, SFcompare in Hhi.
  destruct (e ?= -52) eqn:Hcmp.
  - apply Z.compare_eq in Hcmp. lia.
  - rewrite Z.compare_lt_iff in Hcmp. lia.
  - done.
Qed.

Lemma float_trunc_of_int x n :
  py_int_of_float x = Ok n → float_trunc (Prim2SF x) n.
Proof.
  unfold py_int_of_float, float_trunc. destruct (Prim2SF x) as [s|s| |s m e]; try done.
  - by intros [= <-].
  - intros [= <-]. case_decide as He.
    + exists (Z.shiftl (Z.pos m) e). split; [done|].
      rewrite Z.shiftl_mul_pow2 by done.
      rewrite Z.max_l, Z.max_r by lia. change (2 ^ 0) with 1.
      assert (0 < 2 ^ e) by (apply Z.pow_pos_nonneg; lia). nia.
    + exists (Z.shiftr (Z.pos m) (- e)). split; [done|].
      rewrite Z.shiftr_div_pow2 by lia.
      rewrite Z.max_r, Z.max_l by lia. change (2 ^ 0) with 1.
      assert (0 < 2 ^ (- e)) as Hpow by (apply Z.pow_pos_nonneg; lia).
      pose proof (Z.div_mod (Z.pos m) (2 ^ (- e)) ltac:(lia)) as Hdm.
      pose proof (Z.mod_pos_bound (Z.pos m) (2 ^ (- e)) Hpow) as Hmod.
      pose proof (Z.div_pos (Z.pos m) (2 ^ (- e)) ltac:(lia) Hpow).
      split; [done|]. nia.
Qed.

(** [int(len * ratio)] raises nothing for a ratio in [(0, 1)]: the product of
    a list length and such a ratio is zero or a positive finite float. *)
Lemma subsample_size_total k ratio :
  ratio_in_unit ratio = true → Z.of_nat k < 2 ^ 63 →
  ∃ n, py_int_of_float (PrimFloat.mul (float_of_len k) ratio) = Ok n
       ∧ 0 ≤ n
       ∧ float_trunc (SF64mul (binary_normalize prec emax (Z.of_nat k) 0 false)
                        (Prim2SF ratio)) n.
Proof.
  intros Hratio Hk.
  assert (∃ n, py_int_of_float (PrimFloat.mul (float_of_len k) ratio) = Ok n) as [n Hn].
  { unfold py_int_of_float. rewrite FloatAxioms.mul_spec, float_of_len_spec by done.
    destruct (ratio_in_unit_finite ratio Hratio) as (my & ey & -> & ? & ?).
    destruct (binary_normalize_len (Z.of_nat k)) as [->|(mx & ex & -> & ? & ?)];
      [lia|by eexists|].
    change (SF64mul (S754_finite false mx ex) (S754_finite false my ey))
      with (binary_round_aux prec emax false (Z.pos (mx * my)) (ex + ey) loc_Exact).
    pose proof (digits2_pos_mul mx my).
    destruct (binary_round_aux_finite false (Z.pos (mx * my)) (ex + ey) loc_Exact)
      as [->|(m' & e' & -> & _)]; [lia|lia|cbn [Zdigits2]; lia|by eexists|by eexists]. }
  exists n. split; [done|]. split; [by eapply subsample_size_nonneg|].
  apply float_trunc_of_int in Hn.
  by rewrite FloatAxioms.mul_spec, float_of_len_spec in Hn.
Qed.

(** ** numpy's random module *)

Lemma rng_below_lt n g : (0 < n)%nat → ((rng_below n g).1 < n)%nat.
Proof.
  intros Hn. unfold rng_below. destruct (rng_next g) as [r g']. simpl.
  apply Nat.mod_upper_bound. lia.
Qed.

Lemma np_permutation_go_cons fuel d l g :
  np_permutation_go (S fuel) (d :: l) g
  = (nth (rng_below (length (d :: l)) g).1 (d :: l) d
       :: (np_permutation_go fuel (delete (rng_below (length (d :: l)) g).1 (d :: l))
             (rng_below (length (d :: l)) g).2).1,
     (np_permutation_go fuel (delete (rng_below (length (d :: l)) g).1 (d :: l))
        (rng_below (length (d :: l)) g).2).2).
Proof.
  cbn [np_permutation_go]. destruct (rng_below _ g) as [k g'].
  cbn [fst snd]. by destruct (np_permutation_go _ _ _).
Qed.

Lemma np_permutation_go_perm fuel l g :
  length l = fuel → l ≡ₚ (np_permutation_go fuel l g).1.
Proof.
  revert l g. induction fuel as [|fuel IH]; intros l g Hlen.
  - by destruct l.
  - destruct l as [|d l']; [done|]. rewrite np_permutation_go_cons. cbn [fst].
    pose proof (rng_below_lt (length (d :: l')) g ltac:(simpl; lia)) as Hk.
    destruct (rng_below (length (d :: l')) g) as [k g']. cbn [fst snd] in *.
    destruct (lookup_lt_is_Some_2 (d :: l') k Hk) as [x Hx].
    rewrite (nth_lookup_Some _ _ _ _ Hx).
    rewrite (delete_Permutation _ _ _ Hx) at 1. f_equiv. apply IH.
    rewrite length_delete by eauto. simpl in *. lia.
Qed.

Lemma np_random_permutation_perm a g : a ≡ₚ (np_random_permutation a g).1.
Proof. by apply np_permutation_go_perm. Qed.

(** The tape model loses no behaviour: every rearrangement and every sequence
    of draws is produced by some tape. *)
Lemma rng_below_head n k g : (k < n)%nat → rng_below n (k :: g) = (k, g).
Proof. intros Hk. unfold rng_below. simpl. by rewrite Nat.mod_small. Qed.

Lemma np_random_permutation_complete (a p : list Z) :
  a ≡ₚ p → ∃ g, np_random_permutation a g = (p, []).
Proof.
  unfold np_random_permutation. revert a.
  induction p as [|x p IH]; intros a Hperm.
  - apply Permutation_nil_r in Hperm as ->. by exists [].
  - assert (x ∈ a) as [k Hk]%list_elem_of_lookup_1 by (rewrite Hperm; left).
    pose proof (lookup_lt_Some _ _ _ Hk) as Hlt.
    destruct (IH (delete k a)) as [g Hg].
    { apply (Permutation_cons_inv (a := x)). by rewrite <-delete_Permutation. }
    exists (k :: g). destruct a as [|d a']; [done|].
    change (length (d :: a')) with (S (length a')) at 1.
    rewrite np_permutation_go_cons, rng_below_head by done. cbn [fst snd].
    rewrite (nth_lookup_Some _ _ _ _ Hk).
    rewrite length_delete in Hg by eauto. simpl in Hg.
    rewrite Nat.sub_0_r in Hg. by rewrite Hg.
Qed.

Lemma np_draws_complete (a r : list Z) d :
  Forall (λ x, x ∈ a) r → ∃ g, np_draws (length r) a d g = (r, []).
Proof.
  induction 1 as [|x r Hx _ [g Hg]]; [by exists []|].
  apply list_elem_of_lookup_1 in Hx as [k Hk].
  exists (k :: g). cbn [length np_draws].
  rewrite rng_below_head by (by eapply lookup_lt_Some).
  by rewrite Hg, (nth_lookup_Some _ _ _ _ Hk).
Qed.

(** ** [CRDDatasetWrapper.__init__]: ratio subsampling *)

Lemma py_slice_to_nonneg {A : Type} (l : list A) n :
  0 ≤ n → py_slice_to l n = take (Z.to_nat n) l.
Proof.
  intros Hn. unfold py_slice_to. rewrite decide_False by lia.
  destruct (decide (n ≤ Z.of_nat (length l))).
  - by rewrite Z.min_l.
  - rewrite Z.min_r, Nat2Z.id, firstn_all by lia. symmetry. apply take_ge. lia.
Qed.

Lemma subsample_negatives_spec n (negatives : list (list Z)) g :
  length (subsample_negatives n negatives g).1 = length negatives
  ∧ ∀ c N, negatives !! c = Some N →
      ∃ p, N ≡ₚ p ∧ (subsample_negatives n negatives g).1 !! c = Some (py_slice_to p n).
Proof.
  revert g. induction negatives as [|neg rest IH]; intros g; [done|].
  cbn [subsample_negatives].
  pose proof (np_random_permutation_perm neg g) as Hperm.
  destruct (np_random_permutation neg g) as [p g'].
  destruct (IH g') as [Hlen Hlook].
  destruct (subsample_negatives n rest g') as [ps g'']. cbn [fst] in *.
  split; [simpl; by rewrite Hlen|].
  intros [|c] N HN; simpl in *; [|by apply Hlook].
  injection HN as <-. by exists p.
Qed.

(** [__init__] with subsampling. *)
Lemma crd_init_ratio {image elt : Type} (st : nat → @dataset image elt) org nneg m ratio g
    positives negatives0 n :
  let num_classes := length (ds_classes (st org)) in
  ratio_in_unit ratio = true →
  build_positives (ds_targets (st org)) num_classes (ds_len (st org)) = Ok positives →
  py_getitem (build_negatives positives num_classes) 0 = Ok negatives0 →
  py_int_of_float (PrimFloat.mul (float_of_len (length negatives0)) ratio) = Ok n →
  crd_init st org nneg m ratio g
  = (Ok {| crd_base := base_init org; num_negative_samples := nneg; mode := m;
           cls_positives := positives;
           cls_negatives :=
             (subsample_negatives n (build_negatives positives num_classes) g).1 |},
     (subsample_negatives n (build_negatives positives num_classes) g).2).
Proof.
  intros num_classes Hratio Hpos Hneg0 Hn. unfold crd_init.
  fold num_classes. rewrite Hratio, Hpos.
  unfold mbind, rand_bind, lift, mret, rand_ret, subsample. rewrite Hneg0, Hn.
  by destruct (subsample_negatives _ _ _).
Qed.

Lemma full_negatives_length labels num_classes num_samples c :
  valid_labels labels num_classes num_samples →
  (length (full_negatives labels num_classes num_samples c) ≤ num_samples)%nat.
Proof.
  intros Hvalid.
  trans (length (seqZ 0 (Z.of_nat num_samples))); [|by rewrite length_seqZ, Nat2Z.id].
  apply submseteq_length, NoDup_submseteq.
  - by apply negatives_of_NoDup.
  - intros i [Hi _]%(negatives_of_elem _ _ _ Hvalid). apply elem_of_seqZ. lia.
Qed.

(** C9. With [0 < ratio < 1] (binary64 comparisons),
    [CRDDatasetWrapper.__init__] computes one size
    [n = int(len(cls_negatives[0]) * ratio)] from class 0 -- the binary64
    product of the length and the ratio, with its fractional part dropped;
    the product is never infinite or NaN, so the size always exists -- and
    replaces every class's negative array by the first [n] elements of a
    permutation of itself, so that its length is the minimum of [n] and its
    own former length; with [ratio] outside [(0, 1)] the negative arrays stay
    whole.  [SF64mul] and [binary_normalize] are the Standard Library's
    binary64 product and correctly rounded conversion of an integer; the
    dataset's length is a Python length, below [2 ^ 63]. *)
Theorem crd_init_ratio_subsampling {image elt : Type} (st : nat → @dataset image elt)
    (org : nat) (nneg : Z) (m : string) (ratio : float) (g : rng) :
  let labels := ds_targets (st org) in
  let num_classes := length (ds_classes (st org)) in
  let num_samples := ds_len (st org) in
  valid_labels labels num_classes num_samples →
  (PrimFloat.ltb 0 ratio = true → PrimFloat.ltb ratio 1 = true →
   (0 < num_classes)%nat → Z.of_nat num_samples < 2 ^ 63 →
   ∃ w g' n,
     crd_init st org nneg m ratio g = (Ok w, g')
     ∧ float_trunc
         (SF64mul
            (binary_normalize prec emax
               (Z.of_nat (length (full_negatives labels num_classes num_samples 0))) 0 false)
            (Prim2SF ratio)) n
     ∧ 0 ≤ n
     ∧ length (cls_negatives w) = num_classes
     ∧ ∀ c, (c < num_classes)%nat →
         ∃ p sub,
           full_negatives labels num_classes num_samples c ≡ₚ p
           ∧ cls_negatives w !! c = Some sub
           ∧ sub = take (Z.to_nat n) p
           ∧ length sub
             = (Z.to_nat n `min`
                  length (full_negatives labels num_classes num_samples c))%nat)
  ∧ (PrimFloat.ltb 0 ratio = false ∨ PrimFloat.ltb ratio 1 = false →
     ∃ w,
       crd_init st org nneg m ratio g = (Ok w, g)
       ∧ ∀ c, (c < num_classes)%nat →
           cls_negatives w !! c = Some (full_negatives labels num_classes num_samples c)).
Proof.
  intros labels num_classes num_samples Hvalid.
  pose proof (build_positives_spec labels num_classes num_samples Hvalid) as Hpos.
  pose proof (full_negatives_length labels num_classes num_samples 0 Hvalid) as Hlen0.
  subst labels num_classes num_samples.
  set (labels := ds_targets (st org)) in *.
  set (num_classes := length (ds_classes (st org))) in *.
  set (num_samples := ds_len (st org)) in *.
  split.
  - intros Hlo Hhi Hnc Hsamples.
    assert (ratio_in_unit ratio = true) as Hratio
      by (unfold ratio_in_unit; by rewrite Hlo, Hhi).
    destruct (subsample_size_total
                (length (full_negatives labels num_classes num_samples 0)) ratio Hratio)
      as (n & Hn & Hn0 & Htrunc); [lia|].
    eexists _, _, n. split.
    { eapply crd_init_ratio; [done|exact Hpos| |exact Hn].
      change 0 with (Z.of_nat 0). apply py_getitem_nonneg.
      by apply build_negatives_lookup. }
    split; [done|]. split; [done|]. cbn [cls_negatives]. fold num_classes.
    destruct (subsample_negatives_spec n
                (build_negatives (class_positives labels num_samples <$> seq 0 num_classes)
                   num_classes) g) as [Hlen Hlook].
    split; [by rewrite Hlen, build_negatives_length|].
    intros c Hc.
    destruct (Hlook c _ (build_negatives_lookup _ _ _ Hc)) as (p & Hp & Hsub).
    exists p, (take (Z.to_nat n) p). split; [done|].
    split; [by rewrite Hsub, py_slice_to_nonneg|]. split; [done|].
    rewrite length_take. fold (full_negatives labels num_classes num_samples c) in Hp.
    by rewrite Hp.
  - intros Hout.
    assert (ratio_in_unit ratio = false) as Hratio.
    { unfold ratio_in_unit. destruct Hout as [-> | ->]; [done|apply andb_false_r]. }
    eexists. split; [by apply crd_init_plain|].
    intros c Hc. by apply build_negatives_lookup.
Qed.

(** ** [np.random.choice] *)

Lemma np_draws_spec size (a : list Z) d g :
  a ≠ [] →
  length (np_draws size a d g).1 = size ∧ Forall (λ x, x ∈ a) (np_draws size a d g).1.
Proof.
  intros Ha. revert g. induction size as [|size IH]; intros g; [by split|].
  cbn [np_draws].
  pose proof (rng_below_lt (length a) g) as Hk.
  destruct (rng_below (length a) g) as [k g']. cbn [fst] in Hk.
  destruct (IH g') as [Hlen Hall]. destruct (np_draws size a d g') as [rest g''].
  cbn [fst] in *. split; [simpl; by rewrite Hlen|].
  constructor; [|done].
  destruct (lookup_lt_is_Some_2 a k) as [x Hx].
  { apply Hk. destruct a; [done|simpl; lia]. }
  rewrite (nth_lookup_Some _ _ _ _ Hx). by eapply list_elem_of_lookup_2.
Qed.

Lemma np_random_choice_spec (a : list Z) size replace g :
  0 ≤ size →
  (a ≠ [] ∨ size = 0) →
  (replace = false → size ≤ Z.of_nat (length a)) →
  ∃ r g',
    np_random_choice a size replace g = (Ok r, g')
    ∧ length r = Z.to_nat size
    ∧ Forall (λ x, x ∈ a) r
    ∧ (replace = false → ∃ rest, r ++ rest ≡ₚ a).
Proof.
  intros Hsize Ha Hrep. unfold np_random_choice. rewrite decide_False by lia.
  destruct a as [|d a'].
  { destruct Ha as [?| ->]; [done|]. rewrite decide_True by done.
    exists [], g. split_and!; try done. intros _. by exists []. }
  destruct replace.
  - destruct (np_draws_spec (Z.to_nat size) (d :: a') d g) as [Hlen Hall]; [done|].
    destruct (np_draws _ _ _ _) as [r g']. exists r, g'. by split_and!.
  - rewrite decide_False by (specialize (Hrep eq_refl); lia).
    pose proof (np_random_permutation_perm (d :: a') g) as Hperm.
    destruct (np_random_permutation (d :: a') g) as [p g']. cbn [fst] in Hperm.
    exists (take (Z.to_nat size) p), g'. split_and!.
    + done.
    + rewrite length_take, <-Hperm. specialize (Hrep eq_refl). lia.
    + apply list.Forall_forall. intros x Hx%subseteq_take. by rewrite Hperm.
    + intros _. exists (drop (Z.to_nat size) p). by rewrite take_drop.
Qed.

(** ** [CRDDatasetWrapper.__getitem__] *)

Lemma rand_bind_Ok {A B : Type} (m : rand A) (k : A → rand B) g a g' :
  m g = (Ok a, g') → (m ≫= k) g = k a g'.
Proof. intros Hm. unfold mbind, rand_bind. by rewrite Hm. Qed.

Lemma rand_bind_lift {A B : Type} (m : result A) (k : A → rand B) g a :
  m = Ok a → (lift m ≫= k) g = k a g.
Proof. intros ->. done. Qed.

(** C2, as the code has it.  For every index at which the wrapped dataset
    yields an integer target, with mode ['exact'] or ['relax'] and a draw that
    numpy accepts, [CRDDatasetWrapper.__getitem__] returns a supplementary
    dictionary whose ['contrast_idx'] has [num_negative_samples + 1] elements:
    first the positive index (the queried index in mode ['exact'], an element
    of [cls_positives[target]] in mode ['relax']), then elements of
    [cls_negatives[target]], drawn without replacement when there are enough
    of them; its ['pos_idx'] entry is the queried index. *)
Theorem crd_getitem_spec {image elt : Type} `{!ElemIndex elt} (st : nat → @dataset image elt)
    (w : CRDDatasetWrapper) (index : Z) (g : rng) (sample : value) (target : Z)
    (positives negatives : list Z) :
  mode w = "exact" ∨ mode w = "relax" →
  ds_getitem (st (org_dataset (crd_base w))) index = Ok [sample; VInt target] →
  (mode w = "relax" →
   py_getitem (cls_positives w) target = Ok positives ∧ positives ≠ []) →
  py_getitem (cls_negatives w) target = Ok negatives →
  0 ≤ num_negative_samples w →
  negatives ≠ [] ∨ num_negative_samples w = 0 →
  ∃ supp g' pos_idx neg_idx,
    crd_getitem st w index g = (Ok (sample, VInt target, supp), g')
    ∧ supp !! "contrast_idx" = Some (VArr (pos_idx :: neg_idx))
    ∧ Z.of_nat (length (pos_idx :: neg_idx)) = num_negative_samples w + 1
    ∧ (mode w = "exact" → pos_idx = index)
    ∧ (mode w = "relax" → pos_idx ∈ positives)
    ∧ Forall (λ i, i ∈ negatives) neg_idx
    ∧ (num_negative_samples w ≤ Z.of_nat (length negatives) →
       ∃ rest, neg_idx ++ rest ≡ₚ negatives)
    ∧ supp !! "pos_idx" = Some (VInt index).
Proof.
  intros Hmode Hitem Hpos Hneg Hsize Hdraw.
  assert (base_getitem st (crd_base w) index = Ok (sample, VInt target, ∅)) as Hbase
    by by apply base_getitem_Ok.
  (* the positive index *)
  assert (∃ pos_idx g1,
    (if decide (mode w = "exact") then mret index
     else if decide (mode w = "relax")
          then t ← lift (as_int (@VInt image elt target));
               positives ← lift (py_getitem (cls_positives w) t);
               chosen ← np_random_choice positives 1 true;
               lift (py_getitem chosen 0)
          else lift (Raise NotImplementedError)) g = (Ok pos_idx, g1)
    ∧ (mode w = "exact" → pos_idx = index)
    ∧ (mode w = "relax" → pos_idx ∈ positives)) as (pos_idx & g1 & Hp & Hexact & Hrelax).
  { destruct (decide (mode w = "exact")) as [He|He].
    - exists index, g. split_and!; [done|done|]. rewrite He. done.
    - destruct Hmode as [?|Hr]; [done|]. rewrite decide_True by done.
      destruct (Hpos Hr) as [Hget Hne].
      destruct (np_random_choice_spec positives 1 true g) as (r & g1 & Hr1 & Hlen & Hall & _);
        [lia|by left|done|].
      destruct r as [|p [|??]]; try done.
      exists p, g1. split_and!.
      + rewrite (rand_bind_lift _ _ _ target) by done.
        rewrite (rand_bind_lift _ _ _ positives) by done.
        rewrite (rand_bind_Ok _ _ _ [p] g1) by done. done.
      + done.
      + intros _. by inversion Hall. }
  (* the negative indices *)
  set (replace := bool_decide (Z.of_nat (length negatives) < num_negative_samples w)).
  destruct (np_random_choice_spec negatives (num_negative_samples w) replace g1)
    as (neg_idx & g2 & Hn & Hlen & Hall & Hnorep); [done|done| |].
  { unfold replace. intros Hf%bool_decide_eq_false. lia. }
  exists (<["contrast_idx" := VArr (pos_idx :: neg_idx)]> (<["pos_idx" := VInt index]> ∅)),
    g2, pos_idx, neg_idx.
  split_and!.
  - unfold crd_getitem. rewrite (rand_bind_lift _ _ _ _ Hbase).
    rewrite (rand_bind_Ok _ _ _ _ _ Hp).
    rewrite (rand_bind_lift _ _ _ target) by done.
    rewrite (rand_bind_lift _ _ _ negatives) by done.
    fold replace. rewrite (rand_bind_Ok _ _ _ _ _ Hn). done.
  - by rewrite lookup_insert_eq.
  - simpl length. rewrite Nat2Z.inj_succ, Hlen. lia.
  - done.
  - done.
  - done.
  - intros Hle. apply Hnorep. unfold replace. apply bool_decide_eq_false. lia.
  - by rewrite lookup_insert_ne, lookup_insert_eq.
Qed.

(** ** The example dataset *)

Lemma ex_labels_valid : valid_labels ex_labels 3 7.
Proof.
  intros i Hi.
  do 7 (destruct i as [|i]; [eexists; split; [reflexivity|simpl; lia]|]). lia.
Defined.

Example ex_crd_relax_init : crd_init ex_store 0 2 "relax" 1 [] = (Ok ex_crd_relax, []).
Proof. reflexivity. Qed.

Example ex_crd_subsampled :
  (crd_init ex_store 0 2 "exact" 0.5 [1; 2; 3; 4; 5; 6; 7; 8; 9]%nat).1
  = Ok {| crd_base := base_init 0; num_negative_samples := 2; mode := "exact";
          cls_positives := [[0; 4]; [1; 3]; [2; 5; 6]];
          cls_negatives := [[3; 5]; [4; 6]; [0; 4]] |}.
Proof. reflexivity. Qed.

Lemma crd_init_partitions_by_class_witness :
  ∃ w, crd_init ex_store 0 2 "relax" 1 [] = (Ok w, [])
       ∧ length (cls_positives w) = 3%nat
       ∧ length (cls_negatives w) = 3%nat.
Proof.
  destruct (crd_init_partitions_by_class ex_store 0%nat 2 "relax" 1%float []
              ex_labels_valid eq_refl) as (w & Hw & Hp & Hn & _).
  exists w. split; [exact Hw|]. split; [exact Hp|exact Hn].
Defined.

Lemma crd_init_ratio_subsampling_witness :
  ∃ w g' n,
    crd_init ex_store 0 2 "exact" 0.5 [1; 2; 3; 4; 5; 6; 7; 8; 9]%nat = (Ok w, g')
    ∧ n = 2
    ∧ cls_negatives w = [[3; 5]; [4; 6]; [0; 4]].
Proof.
  destruct (crd_init_ratio_subsampling ex_store 0%nat 2 "exact" 0.5%float
              [1; 2; 3; 4; 5; 6; 7; 8; 9]%nat ex_labels_valid) as [Hsub _].
  destruct (Hsub eq_refl eq_refl ltac:(simpl; lia) ltac:(simpl; lia))
    as (w & g' & n & Hw & Hn & _).
  exists w, g', n. split; [exact Hw|]. split.
  - change (float_trunc (S754_finite false 5629499534213120 (-51)) n) in Hn.
    destruct Hn as (a & -> & _ & Hlo & Hhi).
    change (2 ^ Z.max 0 (- (-51))) with 2251799813685248 in Hlo, Hhi.
    change (2 ^ Z.max 0 (-51)) with 1 in Hlo, Hhi. lia.
  - pose proof ex_crd_subsampled as Hex. rewrite Hw in Hex.
    injection Hex as ->. reflexivity.
Defined.

Lemma crd_getitem_spec_witness :
  ∃ supp g' pos_idx neg_idx,
    crd_getitem ex_store ex_crd_relax 0 [1%nat]
    = (Ok (VTensor (Tensor [1%nat] [0]), VInt 0, supp), g')
    ∧ supp !! "contrast_idx" = Some (VArr (pos_idx :: neg_idx))
    ∧ pos_idx ∈ [0; 4]
    ∧ supp !! "pos_idx" = Some (VInt 0).
Proof.
  destruct (crd_getitem_spec ex_store ex_crd_relax 0 [1%nat]
              (VTensor (Tensor [1%nat] [0])) 0 [0; 4] [1; 3; 2; 5; 6])
    as (supp & g' & p & ns & Hget & Hc & _ & _ & Hrelax & _ & _ & Hpos).
  - right. reflexivity.
  - reflexivity.
  - intros _. split; [reflexivity|discriminate].
  - reflexivity.
  - simpl. lia.
  - left. discriminate.
  - exists supp, g', p, ns. split; [exact Hget|]. split; [exact Hc|].
    split; [exact (Hrelax eq_refl)|exact Hpos].
Defined.

Example ex_crd_relax_getitem :
  crd_getitem ex_store ex_crd_relax 0 [1%nat]
  = (Ok (VTensor (Tensor [1%nat] [0]), VInt 0,
         <["contrast_idx" := VArr [4; 1; 3]]> (<["pos_idx" := VInt 0]> ∅)), []).
Proof. reflexivity. Qed.

(** C2 as stated fails in mode ['relax']: the ['pos_idx'] entry is the queried
    index 0 while the positive index drawn is 4. *)
Lemma crd_getitem_pos_idx_counterexample :
  ¬ pos_idx_entry_is_positive_index ex_store ex_crd_relax 0 [1%nat].
Proof.
  intros Hclaim.
  destruct (Hclaim _ _ _ _ ex_crd_relax_getitem) as (p & ns & Hc & Hp).
  rewrite lookup_insert_eq in Hc.
  rewrite lookup_insert_ne, lookup_insert_eq in Hp by done.
  congruence.
Qed.

Lemma cacheable_getitem_spec_witness :
  ∃ supp,
    cacheable_getitem ex_store ex_cache (cacheable_init 0 "/cache" None None) 3
    = Ok (VTensor (Tensor [1%nat] [3]), VInt 1, supp)
    ∧ supp !! "cache_file_path" = Some (VStr "/cache/3.pt")
    ∧ supp !! "cached_data" = Some (VStr "features").
Proof.
  destruct (cacheable_getitem_spec ex_store ex_cache (cacheable_init 0 "/cache" None None) 3
              (VTensor (Tensor [1%nat] [3])) (VInt 1))
    as (supp & Hget & Hpath & Hex & Hdata & _).
  - reflexivity.
  - intros _. eexists. reflexivity.
  - exists supp. split; [exact Hget|]. split; [exact Hpath|].
    destruct (proj2 Hex eq_refl) as [data Hd]. rewrite Hd. f_equal.
    specialize (Hdata data Hd). change (Ok (VStr "features") = Ok data) in Hdata.
    congruence.
Defined.

Lemma sskd_getitem_spec_witness :
  ∃ stacked,
    sskd_getitem ex_rotate (sskd_init ex_store 0).2 (sskd_init ex_store 0).1 3
    = Ok (VTensor stacked, VInt 1, ∅)
    ∧ shape stacked = [4; 1]%nat
    ∧ storage stacked = [3; 3090; 3180; 3270].
Proof.
  destruct (sskd_getitem_spec ex_rotate ex_store 0%nat 3 ex_transform 3 (VInt 1)
              (Tensor [1%nat] [3]) (Tensor [1%nat] [3090]) (Tensor [1%nat] [3180])
              (Tensor [1%nat] [3270]))
    as (stacked & Hget & _ & Hshape & Hstorage); try reflexivity.
  exists stacked. split; [exact Hget|]. split; [exact Hshape|exact Hstorage].
Defined.

(** Labels that are not class indices are outside the datasets of C1: one
    past the classes is an [IndexError], a negative one counts from the end. *)
Example crd_init_label_too_large :
  let ds : @dataset Z Z :=
    {| ds_classes := ["cat"; "dog"]; ds_targets := [0; 2]; ds_transform := None;
       ds_len := 2; ds_item := λ _ i, Ok [VImage i; VInt 0] |} in
  (crd_init (λ _, ds) 0 2 "exact" 1 []).1 = Raise IndexError.
Proof. reflexivity. Qed.

Example crd_init_label_negative :
  let ds : @dataset Z Z :=
    {| ds_classes := ["cat"; "dog"]; ds_targets := [0; -1]; ds_transform := None;
       ds_len := 2; ds_item := λ _ i, Ok [VImage i; VInt 0] |} in
  cls_positives <$> (crd_init (λ _, ds) 0 2 "exact" 1 []).1 = Ok [[0]; [1]].
Proof. reflexivity. Qed.

(** Without negatives to draw from, numpy rejects the draw. *)
Example crd_getitem_single_class :
  let ds : @dataset Z Z :=
    {| ds_classes := ["cat"]; ds_targets := [0; 0]; ds_transform := None; ds_len := 2;
       ds_item := λ _ i, Ok [VImage i; VInt 0] |} in
  ∃ w, crd_init (λ _, ds) 0 2 "exact" 1 [] = (Ok w, [])
       ∧ (crd_getitem (λ _, ds) w 0 []).1 = Raise ValueError.
Proof. eexists. split; reflexivity. Qed.

(** * Further properties *)

(** ** The registries *)

Lemma _register_forward_proc_func_key {func : Type} (dunder_name : func → option string)
    kwargs f (d : gmap string func) :
  CoreRegistry._register_forward_proc_func dunder_name kwargs f d
  = match registration_key dunder_name kwargs f with
    | Some key => (Ok f, <[key := f]> d)
    | None => (Raise AttributeError, d)
    end.
Proof.
  unfold CoreRegistry._register_forward_proc_func, registration_key.
  by destruct (kwargs_get kwargs "key").
Qed.

Lemma _register_dataset_key {obj : Type} (dunder_name : obj → option string)
    kwargs o (d : gmap string obj) :
  DatasetRegistry._register_dataset dunder_name kwargs o d
  = match registration_key dunder_name kwargs o with
    | Some key => (Ok o, <[key := o]> d)
    | None => (Raise AttributeError, d)
    end.
Proof.
  unfold DatasetRegistry._register_dataset, registration_key.
  by destruct (kwargs_get kwargs "key").
Qed.

(** X1. A function registered with [register_forward_proc_func] is what
    [get_forward_proc_func] returns for its registration key, it is the default
    when that key is ['forward_batch_only'], and lookups of every other name
    are as before the registration. *)
Theorem register_then_get_forward_proc_func {func : Type} (callable : func → bool)
    (dunder_name : func → option string) (f : func)
    (kwargs : gmap string (option string)) (d : gmap string func) (key : string) :
  callable f = true →
  registration_key dunder_name kwargs f = Some key →
  let d' := (CoreRegistry.register_forward_proc_func callable dunder_name
               (Some f) kwargs d).2 in
  CoreRegistry.register_forward_proc_func callable dunder_name (Some f) kwargs d
  = (Ok (CoreRegistry.Registered f), d')
  ∧ CoreRegistry.get_forward_proc_func (Some key) d' = (Ok f, d')
  ∧ (key = "forward_batch_only" → CoreRegistry.get_forward_proc_func None d' = (Ok f, d'))
  ∧ (∀ other, other ≠ key →
       (CoreRegistry.get_forward_proc_func (Some other) d').1
       = (CoreRegistry.get_forward_proc_func (Some other) d).1)
  ∧ (key ≠ "forward_batch_only" →
       (CoreRegistry.get_forward_proc_func None d').1
       = (CoreRegistry.get_forward_proc_func None d).1).
Proof.
  intros Hc Hkey. unfold CoreRegistry.register_forward_proc_func. rewrite Hc.
  rewrite _register_forward_proc_func_key, Hkey. cbn [snd fmap result_fmap].
  unfold CoreRegistry.get_forward_proc_func, dict_contains, dict_getitem.
  split_and!.
  - done.
  - rewrite lookup_insert_eq. by rewrite bool_decide_eq_true_2.
  - intros ->. by rewrite lookup_insert_eq.
  - intros other Hne. rewrite lookup_insert_ne by done.
    by destruct (d !! other); repeat case_bool_decide.
  - intros Hne. cbn [fst]. by rewrite lookup_insert_ne.
Qed.

Lemma register_then_get_forward_proc_func_witness :
  CoreRegistry.get_forward_proc_func (Some "forward_batch_only")
    (CoreRegistry.register_forward_proc_func (λ _ : nat, true) (λ _, Some "f")
       (Some 7%nat) {[ "key" := Some "forward_batch_only" ]} ∅).2
  = (Ok 7%nat,
     (CoreRegistry.register_forward_proc_func (λ _ : nat, true) (λ _, Some "f")
        (Some 7%nat) {[ "key" := Some "forward_batch_only" ]} ∅).2).
Proof.
  apply (register_then_get_forward_proc_func (λ _ : nat, true) (λ _, Some "f") 7%nat
           {[ "key" := Some "forward_batch_only" ]} ∅ "forward_batch_only");
    reflexivity.
Defined.

(** X2. [get_forward_proc_func] fails in two ways only: with [KeyError] exactly
    when [func_name] is [None] and nothing is registered under
    ['forward_batch_only'], and with [ValueError] for an unregistered name; on
    the registry of a fresh module every lookup fails. *)
Theorem get_forward_proc_func_failures {func : Type} (d : gmap string func)
    (func_name : option string) :
  ((CoreRegistry.get_forward_proc_func func_name d).1 = Raise KeyError
   ↔ func_name = None ∧ d !! "forward_batch_only" = None)
  ∧ (∀ e, (CoreRegistry.get_forward_proc_func func_name d).1 = Raise e →
          e = KeyError ∨ e = ValueError)
  ∧ (∀ f, (CoreRegistry.get_forward_proc_func func_name d).1 = Ok f →
          d !! default "forward_batch_only" func_name = Some f)
  ∧ (∀ f, (CoreRegistry.get_forward_proc_func func_name
             (CoreRegistry.PROC_FUNC_DICT (func := func))).1 ≠ Ok f).
Proof.
  unfold CoreRegistry.get_forward_proc_func, dict_contains, dict_getitem,
    CoreRegistry.PROC_FUNC_DICT.
  destruct func_name as [name|]; cbn [fst default].
  - destruct (d !! name) as [f|] eqn:Hf.
    + rewrite bool_decide_eq_true_2 by done. cbn [fst].
      split_and!; [split; [done|by intros [??]]|done|by intros ? [= <-]|].
      intros f'. rewrite bool_decide_eq_false_2; [done|].
      rewrite lookup_empty. by intros [??].
    + rewrite bool_decide_eq_false_2 by (by intros [??]). cbn [fst].
      split_and!; [split; [done|by intros [??]]|intros e [= <-]; by right|done|].
      intros f'. rewrite bool_decide_eq_false_2; [done|].
      rewrite lookup_empty. by intros [??].
  - rewrite lookup_empty. destruct (d !! "forward_batch_only") as [f|].
    + split_and!; [split; [done|by intros [??]]|done|by intros ? [= <-]|done].
    + split_and!; [done|intros e [= <-]; by left|done|done].
Qed.

(** X3. [register_dataset] touches the registry at the registration key only:
    an entry that differs afterwards is the registered callable under its key;
    a failed registration and a call that only builds the decorator leave the
    registry as it was. *)
Theorem register_dataset_frame {obj : Type} (callable : obj → bool)
    (dunder_name : obj → option string) (arg : option obj)
    (kwargs : gmap string (option string)) (d : gmap string obj) :
  let out := DatasetRegistry.register_dataset callable dunder_name arg kwargs d in
  (∀ k, out.2 !! k ≠ d !! k →
     ∃ o, arg = Some o ∧ callable o = true
          ∧ registration_key dunder_name kwargs o = Some k
          ∧ out.2 !! k = Some o
          ∧ out.1 = Ok (DatasetRegistry.Registered o))
  ∧ (∀ e, out.1 = Raise e → e = AttributeError ∧ out.2 = d)
  ∧ (∀ dec, out.1 = Ok (DatasetRegistry.Decorator dec) → out.2 = d).
Proof.
  unfold DatasetRegistry.register_dataset.
  destruct arg as [o|]; [|by split_and!].
  destruct (callable o) eqn:Hc; [|by split_and!].
  rewrite _register_dataset_key.
  destruct (registration_key dunder_name kwargs o) as [key|] eqn:Hkey;
    cbn [fst snd fmap result_fmap]; [|split_and!; [done|by intros e [= <-]|done]].
  split_and!; [|done|done].
  intros k Hk. destruct (decide (key = k)) as [<-|Hne].
  - exists o. by rewrite lookup_insert_eq.
  - by rewrite lookup_insert_ne in Hk.
Qed.

(** X4. The decorator form and the direct form of [register_dataset] agree:
    applying the decorator built from the keywords alone to [cls] does to the
    registry what the call with [cls] and the same keywords does, and returns
    the same object. *)
Theorem register_dataset_decorator_agrees {obj : Type} (callable : obj → bool)
    (dunder_name : obj → option string) (cls : obj)
    (kwargs : gmap string (option string)) (d0 d : gmap string obj) :
  callable cls = true →
  ∃ dec,
    DatasetRegistry.register_dataset callable dunder_name None kwargs d0
    = (Ok (DatasetRegistry.Decorator dec), d0)
    ∧ DatasetRegistry.register_dataset callable dunder_name (Some cls) kwargs d
      = (DatasetRegistry.Registered <$> (dec cls d).1, (dec cls d).2).
Proof.
  intros Hc. eexists. split; [reflexivity|].
  unfold DatasetRegistry.register_dataset. rewrite Hc.
  by destruct (DatasetRegistry._register_dataset dunder_name kwargs cls d).
Qed.

Lemma register_dataset_decorator_agrees_witness :
  ∃ dec,
    DatasetRegistry.register_dataset (λ _ : nat, true) (λ _, Some "MyDataset") None ∅ ∅
    = (Ok (DatasetRegistry.Decorator dec), ∅)
    ∧ (dec 5%nat ∅).2 !! "MyDataset" = Some 5%nat.
Proof.
  destruct (register_dataset_decorator_agrees (λ _ : nat, true) (λ _, Some "MyDataset")
              5%nat ∅ ∅ ∅ eq_refl) as (dec & Hdec & Hsame).
  exists dec. split; [exact Hdec|].
  injection Hsame as _ Hd. rewrite <-Hd. reflexivity.
Defined.

(** X5. Registration over the re-exported catalog: after module initialisation
    and one registration the key maps to the registered object, also when the
    catalog had an entry of that name, every other catalog name still maps to
    the catalog's object, and a later registration under the same key wins. *)
Theorem register_dataset_over_catalog {obj : Type} (callable : obj → bool)
    (dunder_name : obj → option string) (catalog : gmap string obj)
    (cls cls' : obj) (kwargs kwargs' : gmap string (option string)) (key : string) :
  callable cls = true → callable cls' = true →
  registration_key dunder_name kwargs cls = Some key →
  registration_key dunder_name kwargs' cls' = Some key →
  let d1 := (DatasetRegistry.register_dataset callable dunder_name (Some cls) kwargs
               (DatasetRegistry.DATASET_DICT catalog)).2 in
  let d2 := (DatasetRegistry.register_dataset callable dunder_name (Some cls') kwargs' d1).2 in
  d1 !! key = Some cls
  ∧ (∀ name, name ≠ key → d1 !! name = catalog !! name)
  ∧ d2 !! key = Some cls'
  ∧ d2 = (DatasetRegistry.register_dataset callable dunder_name (Some cls') kwargs'
            (DatasetRegistry.DATASET_DICT catalog)).2.
Proof.
  intros Hc Hc' Hkey Hkey'. unfold DatasetRegistry.register_dataset.
  rewrite Hc, Hc', !_register_dataset_key, Hkey, Hkey'. cbn [snd].
  unfold DatasetRegistry.DATASET_DICT, dict_update. rewrite (right_id_L ∅ (∪)).
  split_and!.
  - by rewrite lookup_insert_eq.
  - intros name Hne. by rewrite lookup_insert_ne.
  - by rewrite lookup_insert_eq.
  - by rewrite insert_insert_eq.
Qed.

Lemma register_dataset_over_catalog_witness :
  (DatasetRegistry.register_dataset (λ _ : nat, true) (λ _, Some "CIFAR10") (Some 2%nat) ∅
     (DatasetRegistry.DATASET_DICT {[ "CIFAR10" := 1%nat ]})).2 !! "CIFAR10" = Some 2%nat.
Proof.
  apply (register_dataset_over_catalog (λ _ : nat, true) (λ _, Some "CIFAR10")
           {[ "CIFAR10" := 1%nat ]} 2%nat 2%nat ∅ ∅ "CIFAR10"); reflexivity.
Defined.

(** ** Wrappers: arity and error propagation *)

Lemma leaf_getitem_Ok {image elt : Type} (st : nat → @dataset image elt) w index
    feats waveform target supp :
  leaf_getitem st w index = Ok (feats, waveform, target, supp)
  ↔ ds_getitem (st (leaf_org_dataset w)) index = Ok [feats; waveform; target] ∧ supp = ∅.
Proof.
  unfold leaf_getitem. rewrite bind_Ok. split.
  - intros (item & Hitem & Hm).
    destruct item as [|a [|b [|c [|??]]]]; simplify_eq. done.
  - intros [Hitem ->]. by exists [feats; waveform; target].
Qed.

(** X6. The base and the leaf wrapper unpack tuples of different arity: on an
    item that is not a pair the base wrapper raises [ValueError], on one that
    is not a triple the leaf wrapper does, so no item is accepted by both; an
    exception of the wrapped dataset passes through every wrapper unchanged. *)
Theorem wrappers_unpack_by_arity {image elt : Type} `{!ElemIndex elt}
    (rotate : image → Z → bool → image)
    (st : nat → @dataset image elt) (org : nat) (index : Z) :
  (∀ item, ds_getitem (st org) index = Ok item → length item ≠ 2%nat →
           base_getitem st (base_init org) index = Raise ValueError)
  ∧ (∀ item, ds_getitem (st org) index = Ok item → length item ≠ 3%nat →
             leaf_getitem st (leaf_init org) index = Raise ValueError)
  ∧ (∀ feats waveform target,
       ds_getitem (st org) index = Ok [feats; waveform; target] →
       leaf_getitem st (leaf_init org) index = Ok (feats, waveform, target, ∅))
  ∧ ¬ (is_ok (base_getitem st (base_init org) index)
       ∧ is_ok (leaf_getitem st (leaf_init org) index))
  ∧ (∀ e, ds_getitem (st org) index = Raise e →
       base_getitem st (base_init org) index = Raise e
       ∧ leaf_getitem st (leaf_init org) index = Raise e
       ∧ (∀ fs dir f ext,
            cacheable_getitem st fs (cacheable_init org dir f ext) index = Raise e)
       ∧ (∀ w g, org_dataset (crd_base w) = org →
            crd_getitem st w index g = (Raise e, g))
       ∧ (∀ w, org_dataset (sskd_base w) = org →
            sskd_getitem rotate st w index = Raise e)).
Proof.
  split_and!.
  - intros item Hitem Hlen. unfold base_getitem, base_init. cbn [org_dataset].
    rewrite Hitem. by destruct item as [|a [|b [|??]]].
  - intros item Hitem Hlen. unfold leaf_getitem, leaf_init. cbn [leaf_org_dataset].
    rewrite Hitem. by destruct item as [|a [|b [|c [|??]]]].
  - intros feats waveform target Hitem. by apply leaf_getitem_Ok.
  - intros [[[[s t] supp] Hb] [[[[f wv] t'] supp'] Hl]].
    apply base_getitem_Ok in Hb as [Hb _]. apply leaf_getitem_Ok in Hl as [Hl _].
    cbn in Hb, Hl. congruence.
  - intros e He.
    assert (∀ w, org_dataset w = org → base_getitem st w index = Raise e) as Hbase.
    { intros w <-. unfold base_getitem. by rewrite He. }
    split_and!.
    + by apply Hbase.
    + unfold leaf_getitem, leaf_init. cbn [leaf_org_dataset]. by rewrite He.
    + intros fs dir f ext. unfold cacheable_getitem. by rewrite Hbase.
    + intros w g Hw. unfold crd_getitem, mbind, rand_bind, lift. by rewrite Hbase.
    + intros w Hw. unfold sskd_getitem. by rewrite Hbase.
Qed.

(** ** [CacheableDataset]: the cache *)

Lemma cacheable_getitem_hit {image elt : Type} (st : nat → @dataset image elt)
    (fs : filesystem) w index sample target data :
  let path := os_path_join (cache_dir_path w) (idx2subath_func w index +:+ ext w) in
  ds_getitem (st (org_dataset (cacheable_base w))) index = Ok [sample; target] →
  fs !! path = Some (Ok data) →
  cacheable_getitem st fs w index
  = Ok (sample, target,
        <["cache_file_path" := VStr path]> (<["cached_data" := data]> ∅)).
Proof.
  intros path Hitem Hfile. unfold cacheable_getitem.
  assert (base_getitem st (cacheable_base w) index = Ok (sample, target, ∅)) as ->
    by by apply base_getitem_Ok.
  cbn -[os_path_join]. fold path. unfold check_if_exists, torch_load.
  rewrite Hfile. by rewrite bool_decide_eq_true_2.
Qed.

Lemma cacheable_getitem_miss {image elt : Type} (st : nat → @dataset image elt)
    (fs : filesystem) w index sample target :
  let path := os_path_join (cache_dir_path w) (idx2subath_func w index +:+ ext w) in
  ds_getitem (st (org_dataset (cacheable_base w))) index = Ok [sample; target] →
  fs !! path = None →
  cacheable_getitem st fs w index
  = Ok (sample, target, <["cache_file_path" := VStr path]> ∅).
Proof.
  intros path Hitem Hfile. unfold cacheable_getitem.
  assert (base_getitem st (cacheable_base w) index = Ok (sample, target, ∅)) as ->
    by by apply base_getitem_Ok.
  cbn -[os_path_join]. fold path. unfold check_if_exists.
  rewrite Hfile. by rewrite bool_decide_eq_false_2 by (by intros [??]).
Qed.

(** X7. The cache round trip: when a lookup misses, storing data under the
    reported ['cache_file_path'] makes the next lookup of that index return the
    same sample and target with that data as ['cached_data'], whatever else the
    directory holds. *)
Theorem cacheable_store_then_hit {image elt : Type} (st : nat → @dataset image elt)
    (fs : filesystem) (w : CacheableDataset) (index : Z) (sample target data : value) :
  let path := os_path_join (cache_dir_path w) (idx2subath_func w index +:+ ext w) in
  ds_getitem (st (org_dataset (cacheable_base w))) index = Ok [sample; target] →
  fs !! path = None →
  ∃ supp supp',
    cacheable_getitem st fs w index = Ok (sample, target, supp)
    ∧ supp !! "cache_file_path" = Some (VStr path)
    ∧ supp !! "cached_data" = None
    ∧ cacheable_getitem st (<[path := Ok data]> fs) w index = Ok (sample, target, supp')
    ∧ supp' !! "cached_data" = Some data
    ∧ supp' !! "cache_file_path" = Some (VStr path).
Proof.
  intros path Hitem Hmiss. eexists _, _. split_and!.
  - by apply cacheable_getitem_miss.
  - by rewrite lookup_insert_eq.
  - by rewrite lookup_insert_ne, lookup_empty.
  - apply cacheable_getitem_hit; [done|]. unfold filesystem in *.
    apply lookup_insert_eq.
  - by rewrite lookup_insert_ne, lookup_insert_eq.
  - by rewrite lookup_insert_eq.
Qed.

Lemma cacheable_store_then_hit_witness :
  ∃ supp',
    cacheable_getitem ex_store (<["/cache/4.pt" := Ok (VInt 42)]> ex_cache)
      (cacheable_init 0 "/cache" None None) 4
    = Ok (VTensor (Tensor [1%nat] [4]), VInt 0, supp')
    ∧ supp' !! "cached_data" = Some (VInt 42).
Proof.
  destruct (cacheable_store_then_hit ex_store ex_cache (cacheable_init 0 "/cache" None None) 4
              (VTensor (Tensor [1%nat] [4])) (VInt 0) (VInt 42) eq_refl eq_refl)
    as (supp & supp' & _ & _ & _ & Hhit & Hdata & _).
  exists supp'. split; [exact Hhit|exact Hdata].
Defined.

(** X8. A cache file that exists but does not load makes [__getitem__] fail
    with the loader's exception instead of falling back to the uncached
    sample. *)
Theorem cacheable_getitem_unreadable {image elt : Type} (st : nat → @dataset image elt)
    (fs : filesystem) (w : CacheableDataset) (index : Z) (sample target : value)
    (e : exn) :
  let path := os_path_join (cache_dir_path w) (idx2subath_func w index +:+ ext w) in
  ds_getitem (st (org_dataset (cacheable_base w))) index = Ok [sample; target] →
  fs !! path = Some (Raise e) →
  cacheable_getitem st fs w index = Raise e.
Proof.
  intros path Hitem Hfile. unfold cacheable_getitem.
  assert (base_getitem st (cacheable_base w) index = Ok (sample, target, ∅)) as ->
    by by apply base_getitem_Ok.
  cbn -[os_path_join]. fold path. unfold check_if_exists, torch_load.
  rewrite Hfile. by rewrite bool_decide_eq_true_2.
Qed.

Lemma cacheable_getitem_unreadable_witness :
  cacheable_getitem ex_store {[ "/cache/4.pt" := Raise RuntimeError ]}
    (cacheable_init 0 "/cache" None None) 4 = Raise RuntimeError.
Proof.
  apply (cacheable_getitem_unreadable ex_store {[ "/cache/4.pt" := Raise RuntimeError ]}
           (cacheable_init 0 "/cache" None None) 4
           (VTensor (Tensor [1%nat] [4])) (VInt 0) RuntimeError); reflexivity.
Defined.

(** ** Cache paths *)

Lemma string_app_inj_l (s t1 t2 : string) : s +:+ t1 = s +:+ t2 → t1 = t2.
Proof.
  induction s as [|c s IH]; [done|]. rewrite !string_app_cons. intros [= ?]. auto.
Qed.

Lemma string_app_inj_r (s1 s2 t : string) : s1 +:+ t = s2 +:+ t → s1 = s2.
Proof.
  intros Heq.
  assert (String.length s1 = String.length s2) as Hlen.
  { apply (f_equal String.length) in Heq. rewrite !string_app_length in Heq. lia. }
  revert s2 Heq Hlen. induction s1 as [|c s1 IH]; intros [|c' s2] Heq Hlen; try done.
  rewrite !string_app_cons in Heq. injection Heq as -> Heq. f_equal.
  apply IH; [done|]. simpl in Hlen. lia.
Qed.

Lemma string_starts_with_sep_app (s t : string) :
  s ≠ "" → string_starts_with_sep (s +:+ t) = string_starts_with_sep s.
Proof. by destruct s. Qed.

Lemma os_path_join_inj (a b1 b2 : string) :
  string_starts_with_sep b1 = false → string_starts_with_sep b2 = false →
  os_path_join a b1 = os_path_join a b2 → b1 = b2.
Proof.
  intros H1 H2. unfold os_path_join. rewrite H1, H2.
  destruct (_ || _); intros Heq.
  - by apply string_app_inj_l in Heq.
  - by apply string_app_inj_l, string_app_inj_l in Heq.
Qed.

Section decimal_injective.
Local Open Scope N_scope.

Lemma pretty_N_go_nonempty x : 0 < x → pretty_N_go x "" ≠ "".
Proof.
  intros Hx. rewrite pretty_N_go_step, pretty_N_go_app by done.
  intros Heq. apply (f_equal String.length) in Heq.
  rewrite string_app_length in Heq. simpl in Heq. lia.
Qed.

Lemma low4_digits x :
  x < 10000 →
  x = 1000 * ((x `div` 1000) `mod` 10) + 100 * ((x `div` 100) `mod` 10)
      + 10 * ((x `div` 10) `mod` 10) + x `mod` 10.
Proof.
  intros Hx.
  pose proof (N.div_mod x 10 ltac:(done)) as H0.
  pose proof (N.div_mod (x `div` 10) 10 ltac:(done)) as H1.
  pose proof (N.div_mod (x `div` 100) 10 ltac:(done)) as H2.
  replace ((x `div` 10) `div` 10) with (x `div` 100) in H1
    by (by rewrite N.Div0.div_div).
  replace ((x `div` 100) `div` 10) with (x `div` 1000) in H2
    by (by rewrite N.Div0.div_div).
  assert (x `div` 1000 < 10) as H3 by (apply N.Div0.div_lt_upper_bound; lia).
  rewrite (N.mod_small (x `div` 1000) 10) by done. lia.
Qed.

Lemma low4_inj x y s : x < 10000 → y < 10000 → low4 x s = low4 y s → x = y.
Proof.
  intros Hx Hy. unfold low4. intros [= H3 H2 H1 H0].
  apply pretty_N_char_inj in H3, H2, H1, H0; try apply N.mod_lt; try done.
  rewrite (low4_digits x), (low4_digits y) by done. by rewrite H3, H2, H1, H0.
Qed.

Lemma py_str_int_no_sep i : string_starts_with_sep (py_str_int i) = false.
Proof.
  destruct i as [|p|p]; [done| |done].
  change (py_str_int (Z.pos p)) with (pretty_N_go (N.pos p) "").
  by apply pretty_N_go_starts.
Qed.

Lemma py_str_int_nonempty i : py_str_int i ≠ "".
Proof.
  destruct i as [|p|p]; [done| |done].
  change (py_str_int (Z.pos p)) with (pretty_N_go (N.pos p) "").
  by apply pretty_N_go_nonempty.
Qed.

Lemma format_0d_4_inj i j : (0 ≤ i)%Z → (0 ≤ j)%Z → format_0d 4 i = format_0d 4 j → i = j.
Proof.
  intros Hi Hj. rewrite <-(Z2N.id i), <-(Z2N.id j) by done.
  set (x := Z.to_N i). set (y := Z.to_N j). intros Heq. f_equal.
  assert (∀ z, 10000 ≤ z → (4 < String.length (format_0d 4 (Z.of_N z)))%nat) as Hlong.
  { intros z Hz. destruct (format_0d_large z Hz) as [-> ->].
    rewrite string_app_length, low4_length.
    assert (pretty_N_go (z `div` 10000) "" ≠ "") as Hne
      by (apply pretty_N_go_nonempty, N.div_str_pos; lia).
    destruct (pretty_N_go _ _); [done|simpl; lia]. }
  destruct (decide (x < 10000)) as [Hx|Hx], (decide (y < 10000)) as [Hy|Hy].
  - rewrite !format_0d_small in Heq by done. by eapply low4_inj.
  - specialize (Hlong y ltac:(lia)). rewrite <-Heq, format_0d_small in Hlong by done.
    simpl in Hlong. lia.
  - specialize (Hlong x ltac:(lia)). rewrite Heq, format_0d_small in Hlong by done.
    simpl in Hlong. lia.
  - destruct (format_0d_large x) as [Hfx _]; [lia|].
    destruct (format_0d_large y) as [Hfy _]; [lia|].
    rewrite Hfx, Hfy in Heq. apply (inj pretty) in Heq. lia.
Qed.

Lemma format_0d_4_parent i :
  (0 ≤ i)%Z →
  py_slice_from (format_0d 4 i) (-4) = low4 (Z.to_N i `mod` 10000) ""
  ∧ string_starts_with_sep (format_0d 4 i) = false.
Proof.
  intros Hi. rewrite <-(Z2N.id i) by done. rewrite N2Z.id.
  generalize (Z.to_N i). clear i Hi. intros x.
  destruct (decide (x < 10000)) as [Hx|Hx].
  - rewrite format_0d_small, N.mod_small by done. split; [|apply low4_starts].
    by apply (py_slice_from_suffix "" (low4 x "")).
  - destruct (format_0d_large x) as [-> ->]; [lia|]. split.
    + by apply (py_slice_from_suffix _ (low4 (x `mod` 10000) "")).
    + rewrite <-pretty_N_go_app. apply pretty_N_go_starts, low4_starts.
Qed.
End decimal_injective.

Lemma default_idx2subpath_unfold index :
  0 ≤ index →
  default_idx2subpath index
  = low4 (Z.to_N index `mod` 10000) "" +:+ "/" +:+ format_0d 4 index
  ∧ string_starts_with_sep (default_idx2subpath index) = false.
Proof.
  intros Hi. unfold default_idx2subpath.
  destruct (format_0d_4_parent index Hi) as [-> Hsep].
  rewrite os_path_join_low4 by done. split; [done|]. apply low4_starts.
Qed.

Lemma default_idx2subpath_inj (i j : Z) :
  0 ≤ i → 0 ≤ j → default_idx2subpath i = default_idx2subpath j → i = j.
Proof.
  intros Hi Hj.
  destruct (default_idx2subpath_unfold i Hi) as [-> _].
  destruct (default_idx2subpath_unfold j Hj) as [-> _].
  intros Heq. apply (f_equal (string_drop 5)) in Heq.
  change (format_0d 4 i = format_0d 4 j) in Heq. by apply format_0d_4_inj.
Qed.

(** X9. [default_idx2subpath] gives distinct paths to distinct non-negative
    indices, and two such indices share the parent directory exactly when they
    agree modulo 10000. *)
Theorem default_idx2subpath_injective (i j : Z) :
  0 ≤ i → 0 ≤ j →
  (i ≠ j → default_idx2subpath i ≠ default_idx2subpath j)
  ∧ (py_slice_from (format_0d 4 i) (-4) = py_slice_from (format_0d 4 j) (-4)
     ↔ i `mod` 10000 = j `mod` 10000).
Proof.
  intros Hi Hj. split; [intros Hne Heq; by apply Hne, default_idx2subpath_inj|].
  destruct (format_0d_4_parent i Hi) as [-> _].
  destruct (format_0d_4_parent j Hj) as [-> _].
  assert (∀ k, 0 ≤ k → Z.of_N (Z.to_N k `mod` 10000) = k `mod` 10000) as Hmod.
  { intros k Hk. rewrite N2Z.inj_mod, Z2N.id by done. done. }
  rewrite <-(Hmod i), <-(Hmod j) by done. split.
  - intros Heq. f_equal. eapply low4_inj; [..|done]; by apply N.mod_lt.
  - intros Heq%(inj Z.of_N). by rewrite Heq.
Qed.

Lemma default_idx2subpath_injective_witness :
  default_idx2subpath 12345 ≠ default_idx2subpath 2345
  ∧ py_slice_from (format_0d 4 12345) (-4) = py_slice_from (format_0d 4 2345) (-4).
Proof.
  destruct (default_idx2subpath_injective 12345 2345) as [Hne Hparent]; [lia|lia|].
  split; [apply Hne; lia|apply Hparent; reflexivity].
Defined.

Lemma cacheable_getitem_path {image elt : Type} (st : nat → @dataset image elt)
    (fs : filesystem) w index sample target supp :
  cacheable_getitem st fs w index = Ok (sample, target, supp) →
  supp !! "cache_file_path"
  = Some (VStr (os_path_join (cache_dir_path w) (idx2subath_func w index +:+ ext w))).
Proof.
  unfold cacheable_getitem.
  destruct (base_getitem st (cacheable_base w) index) as [[[s t] supp0]|]; [|done].
  cbn -[os_path_join]. destruct (check_if_exists _ _).
  - destruct (torch_load _ _); [|done]. cbn -[os_path_join].
    intros [= _ _ <-]. by rewrite lookup_insert_eq.
  - cbn -[os_path_join]. intros [= _ _ <-]. by rewrite lookup_insert_eq.
Qed.

(** X10. Distinct indices never share a cache file: with the default [str]
    naming for all indices, and with [default_idx2subpath] for all
    non-negative indices, lookups of two different indices report different
    ['cache_file_path'] entries. *)
Theorem cacheable_paths_distinct {image elt : Type} (st : nat → @dataset image elt)
    (fs fs' : filesystem) (org : nat) (dir : string) (f : option (Z → string))
    (ext_arg : option string) (i j : Z) (s t s' t' : value) (supp supp' : gmap string value) :
  let w := cacheable_init org dir f ext_arg in
  f = None ∨ (f = Some default_idx2subpath ∧ 0 ≤ i ∧ 0 ≤ j) →
  cacheable_getitem st fs w i = Ok (s, t, supp) →
  cacheable_getitem st fs' w j = Ok (s', t', supp') →
  i ≠ j →
  supp !! "cache_file_path" ≠ supp' !! "cache_file_path".
Proof.
  intros w Hf Hi%cacheable_getitem_path Hj%cacheable_getitem_path Hne Heq.
  apply Hne. clear Hne.
  rewrite Hi, Hj in Heq. injection Heq as Heq. cbn in Heq.
  assert (∀ k, (f = None ∨ (f = Some default_idx2subpath ∧ 0 ≤ k)) →
            default py_str_int f k ≠ ""
            ∧ string_starts_with_sep (default py_str_int f k) = false) as Hname.
  { intros k [->|[-> Hk]]; cbn.
    - split; [apply py_str_int_nonempty|apply py_str_int_no_sep].
    - destruct (default_idx2subpath_unfold k Hk) as [Hu Hsep]. split; [|done].
      rewrite Hu. done. }
  assert (default py_str_int f i = default py_str_int f j) as Hsame.
  { destruct (Hname i) as [Hi1 Hi2];
      [destruct Hf as [?|(? & ? & ?)]; [by left|by right]|].
    destruct (Hname j) as [Hj1 Hj2];
      [destruct Hf as [?|(? & ? & ?)]; [by left|by right]|].
    apply os_path_join_inj in Heq; [by apply string_app_inj_r in Heq|..];
      by rewrite string_starts_with_sep_app. }
  destruct Hf as [->|(-> & ? & ?)]; cbn in Hsame.
  - by apply (inj pretty) in Hsame.
  - by apply default_idx2subpath_inj.
Qed.

Lemma cacheable_paths_distinct_witness :
  (<["cache_file_path" := VStr "/cache/0003/0003.pt"]> ∅ : gmap string (@value Z Z))
    !! "cache_file_path"
  ≠ (<["cache_file_path" := VStr "/cache/0004/0004.pt"]> ∅ : gmap string (@value Z Z))
    !! "cache_file_path".
Proof.
  apply (cacheable_paths_distinct ex_store ex_cache ex_cache 0%nat "/cache"
           (Some default_idx2subpath) None 3 4
           (VTensor (Tensor [1%nat] [3])) (VInt 1) (VTensor (Tensor [1%nat] [4])) (VInt 0));
    [right; split; [reflexivity|lia]|reflexivity|reflexivity|lia].
Defined.

(** ** [SSKDDatasetWrapper]: sharing the wrapped dataset *)

Lemma sskd_getitem_base_eq {image elt : Type} (rotate : image → Z → bool → image)
    (st st' : nat → @dataset image elt) w index :
  base_getitem st' (sskd_base w) index = base_getitem st (sskd_base w) index →
  sskd_getitem rotate st' w index = sskd_getitem rotate st w index.
Proof. intros Heq. unfold sskd_getitem. by rewrite Heq. Qed.

(** X11. Wrapping one dataset twice: the second [SSKDDatasetWrapper] finds the
    transform already taken, so it stores [None], leaves the store as the first
    construction left it, and its [__getitem__] raises [TypeError] on every
    item the dataset yields as a pair; the first wrapper keeps working. *)
Theorem sskd_wrapping_twice {image elt : Type} (rotate : image → Z → bool → image)
    (st : nat → @dataset image elt) (org : nat) (index : Z) :
  let w1 := (sskd_init st org).1 in
  let st1 := (sskd_init st org).2 in
  let w2 := (sskd_init st1 org).1 in
  let st2 := (sskd_init st1 org).2 in
  sskd_transform w2 = None
  ∧ (∀ l, st2 l = st1 l)
  ∧ (∀ sample target,
       ds_item (st org) None index = Ok [sample; target] →
       sskd_getitem rotate st2 w2 index = Raise TypeError)
  ∧ sskd_getitem rotate st2 w1 index = sskd_getitem rotate st1 w1 index.
Proof.
  intros w1 st1 w2 st2.
  assert (∀ l, st2 l = st1 l) as Hst.
  { intros l. unfold st2, st1, sskd_init. cbn [snd].
    destruct (decide (org = l)) as [<-|Hne].
    - by rewrite !fn_lookup_insert.
    - by rewrite !fn_lookup_insert_ne. }
  split_and!.
  - unfold w2, st1, sskd_init. cbn. by rewrite fn_lookup_insert.
  - done.
  - intros sample target Hitem. unfold sskd_getitem.
    assert (base_getitem st2 (sskd_base w2) index = Ok (sample, target, ∅)) as ->.
    { apply base_getitem_Ok. split; [|done]. cbn [w2 sskd_init fst sskd_base base_init
        org_dataset]. rewrite Hst. unfold st1, sskd_init, ds_getitem. cbn [snd].
      by rewrite fn_lookup_insert. }
    assert (ds_transform (st1 org) = None) as Htr.
    { unfold st1, sskd_init. cbn [snd]. by rewrite fn_lookup_insert. }
    cbn [w2 sskd_init fst sskd_transform]. by rewrite Htr.
  - apply sskd_getitem_base_eq. unfold base_getitem. by rewrite Hst.
Qed.

(** X12. What the construction of an [SSKDDatasetWrapper] does to other users
    of the store: a wrapper of the same dataset now reads the dataset's
    untransformed items, while every wrapper of another dataset reads what it
    read before. *)
Theorem sskd_init_seen_by_other_wrappers {image elt : Type} `{!ElemIndex elt}
    (st : nat → @dataset image elt) (org : nat) (index : Z) :
  let st' := (sskd_init st org).2 in
  ds_getitem (st' org) index = ds_item (st org) None index
  ∧ (∀ sample target,
       ds_item (st org) None index = Ok [sample; target] →
       base_getitem st' (base_init org) index = Ok (sample, target, ∅))
  ∧ (∀ w, org_dataset w ≠ org → base_getitem st' w index = base_getitem st w index)
  ∧ (∀ fs w, org_dataset (cacheable_base w) ≠ org →
       cacheable_getitem st' fs w index = cacheable_getitem st fs w index)
  ∧ (∀ w g, org_dataset (crd_base w) ≠ org →
       crd_getitem st' w index g = crd_getitem st w index g)
  ∧ (∀ w, leaf_org_dataset w ≠ org → leaf_getitem st' w index = leaf_getitem st w index).
Proof.
  intros st'.
  assert (ds_getitem (st' org) index = ds_item (st org) None index) as Hsame.
  { unfold st', sskd_init, ds_getitem. cbn [snd]. by rewrite fn_lookup_insert. }
  assert (∀ l, l ≠ org → st' l = st l) as Hother.
  { intros l Hl. unfold st', sskd_init. cbn [snd]. by rewrite fn_lookup_insert_ne. }
  assert (∀ w, org_dataset w ≠ org → base_getitem st' w index = base_getitem st w index)
    as Hbase.
  { intros w Hw. unfold base_getitem. by rewrite Hother. }
  split_and!.
  - done.
  - intros sample target Hitem. apply base_getitem_Ok.
    cbn [base_init org_dataset]. by rewrite Hsame.
  - done.
  - intros fs w Hw. unfold cacheable_getitem. by rewrite Hbase.
  - intros w g Hw. unfold crd_getitem. by rewrite Hbase.
  - intros w Hw. unfold leaf_getitem. by rewrite Hother.
Qed.

(** X13. Views of different shapes are not stacked: when the stored transform
    yields tensors for the sample and its three rotations and one of the
    rotated views has another shape than the first, [__getitem__] raises
    [RuntimeError]. *)
Theorem sskd_getitem_ragged {image elt : Type} (rotate : image → Z → bool → image)
    (st : nat → @dataset image elt) (w : SSKDDatasetWrapper) (index : Z)
    (tr : value → result value) (im : image) (target : value)
    (t0 t90 t180 t270 : tensor) :
  sskd_transform w = Some tr →
  ds_getitem (st (org_dataset (sskd_base w))) index = Ok [VImage im; target] →
  tr (VImage im) = Ok (VTensor t0) →
  tr (VImage (rotate im 90 true)) = Ok (VTensor t90) →
  tr (VImage (rotate im 180 true)) = Ok (VTensor t180) →
  tr (VImage (rotate im 270 true)) = Ok (VTensor t270) →
  ¬ (shape t90 = shape t0 ∧ shape t180 = shape t0 ∧ shape t270 = shape t0) →
  sskd_getitem rotate st w index = Raise RuntimeError.
Proof.
  intros Htr Hitem H0 H90 H180 H270 Hshape. unfold sskd_getitem.
  assert (base_getitem st (sskd_base w) index = Ok (VImage im, target, ∅)) as ->
    by by apply base_getitem_Ok.
  cbn -[torch_stack]. rewrite Htr. cbn -[torch_stack].
  rewrite H0. cbn -[torch_stack]. rewrite H90. cbn -[torch_stack].
  rewrite H180. cbn -[torch_stack]. rewrite H270. cbn -[torch_stack].
  unfold torch_stack. cbn [forallb].
  rewrite (bool_decide_eq_true_2 (shape t0 = shape t0)) by done. cbn [andb].
  destruct (decide (shape t90 = shape t0)) as [H1|H1];
    [|by rewrite (bool_decide_eq_false_2 _ H1)].
  destruct (decide (shape t180 = shape t0)) as [H2|H2];
    [|by rewrite (bool_decide_eq_true_2 _ H1), (bool_decide_eq_false_2 _ H2)].
  destruct (decide (shape t270 = shape t0)) as [H3|H3]; [by destruct Hshape|].
  by rewrite (bool_decide_eq_true_2 _ H1), (bool_decide_eq_true_2 _ H2),
    (bool_decide_eq_false_2 _ H3).
Qed.

Lemma sskd_getitem_ragged_witness :
  sskd_getitem ex_rotate (sskd_init ex_store 0).2
    {| sskd_base := base_init 0; sskd_transform := Some ex_transform_ragged |} 3
  = Raise RuntimeError.
Proof.
  apply (sskd_getitem_ragged ex_rotate (sskd_init ex_store 0).2
           {| sskd_base := base_init 0; sskd_transform := Some ex_transform_ragged |}
           3 ex_transform_ragged 3 (VInt 1)
           (Tensor [2%nat] [3; 3]) (Tensor [1%nat] [3090]) (Tensor [1%nat] [3180])
           (Tensor [1%nat] [3270])); try reflexivity.
  intros (H & _ & _). discriminate H.
Defined.

(** ** [CRDDatasetWrapper]: failures and invariants *)

Lemma np_random_choice_inv (a : list Z) size replace g r g' :
  np_random_choice a size replace g = (Ok r, g') →
  0 ≤ size ∧ (a ≠ [] ∨ size = 0) ∧ Z.of_nat (length r) = size
  ∧ Forall (λ x, x ∈ a) r.
Proof.
  intros Hc.
  assert (0 ≤ size ∧ (a ≠ [] ∨ size = 0)
          ∧ (replace = false → size ≤ Z.of_nat (length a))) as (Hsize & Ha & Hrep).
  { unfold np_random_choice in Hc. destruct (decide (size < 0)); [done|].
    split; [lia|]. destruct a as [|d a'].
    - destruct (decide (size = 0)); [|done]. split; [by right|]. simpl. lia.
    - split; [by left|]. intros ->. destruct (decide (_ < size)); [done|lia]. }
  destruct (np_random_choice_spec a size replace g Hsize Ha Hrep)
    as (r0 & g0 & Hc0 & Hlen & Hall & _).
  rewrite Hc in Hc0. injection Hc0 as -> ->. split_and!; [done|done|lia|done].
Qed.

Lemma np_random_choice_rejects (a : list Z) size replace g :
  size < 0 ∨ (a = [] ∧ size ≠ 0) →
  np_random_choice a size replace g = (Raise ValueError, g).
Proof.
  unfold np_random_choice. intros [Hneg|[-> Hne]].
  - by rewrite decide_True.
  - destruct (decide (size < 0)); [done|]. by rewrite decide_False.
Qed.

Lemma py_getitem_nonneg_inv {A : Type} (l : list A) i x :
  0 ≤ i → py_getitem l i = Ok x → l !! Z.to_nat i = Some x.
Proof.
  intros Hi. unfold py_getitem, py_index.
  destruct (decide (0 ≤ i < Z.of_nat (length l))) as [?|Hout].
  - cbn. by destruct (l !! Z.to_nat i); intros [= <-].
  - by rewrite decide_False by lia.
Qed.

Lemma crd_getitem_inv {image elt : Type} `{!ElemIndex elt} (st : nat → @dataset image elt)
    w index g sample target supp g' :
  crd_getitem st w index g = (Ok (sample, target, supp), g') →
  ∃ t negatives pos_idx neg_idx,
    ds_getitem (st (org_dataset (crd_base w))) index = Ok [sample; target]
    ∧ as_int target = Ok t
    ∧ py_getitem (cls_negatives w) t = Ok negatives
    ∧ Forall (λ i, i ∈ negatives) neg_idx
    ∧ Z.of_nat (length neg_idx) = num_negative_samples w
    ∧ (mode w = "exact" ∧ pos_idx = index
       ∨ mode w = "relax"
         ∧ ∃ positives, py_getitem (cls_positives w) t = Ok positives
                        ∧ pos_idx ∈ positives)
    ∧ supp = <["contrast_idx" := VArr (pos_idx :: neg_idx)]>
               (<["pos_idx" := VInt index]> ∅).
Proof.
  unfold crd_getitem, mbind, rand_bind, lift, mret, rand_ret.
  destruct (base_getitem st (crd_base w) index) as [[[s0 t0] supp0]|] eqn:Hb; [|done].
  apply base_getitem_Ok in Hb as [Hb ->].
  assert (∀ pos_idx g1 (Hpos : mode w = "exact" ∧ pos_idx = index
             ∨ mode w = "relax"
               ∧ ∃ t positives, as_int t0 = Ok t
                                ∧ py_getitem (cls_positives w) t = Ok positives
                                ∧ pos_idx ∈ positives),
    match as_int t0 with
    | Ok t =>
        match py_getitem (cls_negatives w) t with
        | Ok negatives =>
            match np_random_choice negatives (num_negative_samples w)
                    (bool_decide (Z.of_nat (length negatives) < num_negative_samples w)) g1 with
            | (Ok neg_idx, g2) =>
                (Ok (s0, t0, <["contrast_idx" := VArr (pos_idx :: neg_idx)]>
                               (<["pos_idx" := VInt index]> ∅)), g2)
            | (Raise e, g2) => (Raise e, g2)
            end
        | Raise e => (Raise e, g1)
        end
    | Raise e => (Raise e, g1)
    end = (Ok (sample, target, supp), g') →
    ∃ t negatives pos_idx neg_idx,
      ds_getitem (st (org_dataset (crd_base w))) index = Ok [sample; target]
      ∧ as_int target = Ok t
      ∧ py_getitem (cls_negatives w) t = Ok negatives
      ∧ Forall (λ i, i ∈ negatives) neg_idx
      ∧ Z.of_nat (length neg_idx) = num_negative_samples w
      ∧ (mode w = "exact" ∧ pos_idx = index
         ∨ mode w = "relax"
           ∧ ∃ positives, py_getitem (cls_positives w) t = Ok positives
                          ∧ pos_idx ∈ positives)
      ∧ supp = <["contrast_idx" := VArr (pos_idx :: neg_idx)]>
                 (<["pos_idx" := VInt index]> ∅)) as Hrest.
  { intros pos_idx g1 Hpos. destruct (as_int t0) as [t|] eqn:Ht; [|done].
    destruct (py_getitem (cls_negatives w) t) as [negatives|] eqn:Hneg; [|done].
    destruct (np_random_choice _ _ _ g1) as [[neg_idx|] g2] eqn:Hc; [|done].
    intros [= <- <- <- <-].
    apply np_random_choice_inv in Hc as (_ & _ & Hlen & Hall).
    exists t, negatives, pos_idx, neg_idx. split_and!; try done.
    destruct Hpos as [?|(Hr & t' & positives & [= <-] & ? & ?)]; [by left|].
    right. split; [done|]. by exists positives. }
  destruct (decide (mode w = "exact")) as [He|He].
  { apply Hrest. by left. }
  destruct (decide (mode w = "relax")) as [Hr|Hr]; [|done].
  destruct (as_int t0) as [t|] eqn:Ht; [|done].
  destruct (py_getitem (cls_positives w) t) as [positives|] eqn:Hpos; [|done].
  destruct (np_random_choice positives 1 true g) as [[chosen|] g1] eqn:Hc; [|done].
  apply np_random_choice_inv in Hc as (_ & _ & Hlen & Hall).
  destruct chosen as [|p [|??]]; try (simpl in Hlen; lia).
  change (py_getitem [p] 0) with (Ok p). intros Hget.
  apply (Hrest p g1); [|done]. right.
  split; [done|]. exists t, positives. split_and!; [done|done|by inversion Hall].
Qed.

Lemma py_index_inv n i k : py_index n i = Ok k → - Z.of_nat n ≤ i < Z.of_nat n ∧ (k < n)%nat.
Proof.
  unfold py_index. repeat case_decide; intros [= <-]; lia.
Qed.

Lemma py_index_error n i e : py_index n i = Raise e → e = IndexError.
Proof. unfold py_index. by repeat case_decide; intros [= <-]. Qed.

Lemma py_getitem_error {A : Type} (l : list A) i e : py_getitem l i = Raise e → e = IndexError.
Proof.
  unfold py_getitem. destruct (py_index (length l) i) as [k|e'] eqn:Hk; cbn.
  - destruct (l !! k); [done|]. by intros [= <-].
  - intros [= <-]. by eapply py_index_error.
Qed.

Lemma py_getitem_wrap {A : Type} (l : list A) i :
  - Z.of_nat (length l) ≤ i < Z.of_nat (length l) → is_ok (py_getitem l i).
Proof.
  intros Hi. unfold py_getitem, py_index.
  destruct (decide (0 ≤ i < Z.of_nat (length l))) as [?|?]; cbn.
  - destruct (lookup_lt_is_Some_2 l (Z.to_nat i)) as [x ->]; [lia|]. by exists x.
  - rewrite decide_True by lia. cbn.
    destruct (lookup_lt_is_Some_2 l (Z.to_nat (i + Z.of_nat (length l)))) as [x ->]; [lia|].
    by exists x.
Qed.

(** Labels the first loop accepts: class indices, counted from either end. *)
Lemma append_positive_Ok labels (cls : list (list Z)) (k : nat) cls' :
  append_positive labels cls (Z.of_nat k) = Ok cls' →
  length cls' = length cls
  ∧ ∃ l, labels !! k = Some l ∧ - Z.of_nat (length cls) ≤ l < Z.of_nat (length cls).
Proof.
  unfold append_positive. intros (l & Hl & (j & Hj & [= <-])%bind_Ok)%bind_Ok.
  split; [by rewrite length_alter|]. exists l. split.
  - apply py_getitem_nonneg_inv in Hl; [|lia]. by rewrite Nat2Z.id in Hl.
  - by apply py_index_inv in Hj as [? _].
Qed.

Lemma append_positive_error labels (cls : list (list Z)) i e :
  append_positive labels cls i = Raise e → e = IndexError.
Proof.
  unfold append_positive.
  destruct (py_getitem labels i) as [l|e'] eqn:Hl; cbn.
  - destruct (py_index (length cls) l) as [j|e''] eqn:Hj; cbn; [done|].
    intros [= <-]. by eapply py_index_error.
  - intros [= <-]. by eapply py_getitem_error.
Qed.

Section build_positives_outcome.
Variables (labels : list Z) (num_classes : nat).

Let step := (λ (acc : result (list (list Z))) (i : Z),
               cls ← acc; append_positive labels cls i).

Let wrapped (k : nat) : Prop := indexable_labels labels num_classes k.

Lemma build_positives_prefix_Ok k cls :
  foldl step (Ok (replicate num_classes [])) (py_range (Z.of_nat k)) = Ok cls →
  length cls = num_classes ∧ wrapped k.
Proof.
  revert cls. induction k as [|k IH]; intros cls.
  - intros [= <-]. split; [by rewrite length_replicate|]. intros i ?. lia.
  - unfold py_range. rewrite seqZ_S, foldl_app, Z.add_0_l. cbn [foldl].
    fold (py_range (Z.of_nat k)). unfold step at 1.
    intros (cls0 & Hcls0 & Happ)%bind_Ok.
    destruct (IH _ Hcls0) as [Hlen Hw].
    apply append_positive_Ok in Happ as (Hlen' & l & Hl & Hrange).
    split; [congruence|]. intros i Hi.
    destruct (decide (i = k)) as [->|]; [|apply Hw; lia].
    exists l. split; [done|]. by rewrite <-Hlen.
Qed.

Lemma build_positives_prefix_error k e :
  foldl step (Ok (replicate num_classes [])) (py_range (Z.of_nat k)) = Raise e →
  e = IndexError.
Proof.
  induction k as [|k IH]; [done|].
  unfold py_range. rewrite seqZ_S, foldl_app, Z.add_0_l. cbn [foldl].
  fold (py_range (Z.of_nat k)). unfold step at 1.
  destruct (foldl step _ (py_range (Z.of_nat k))) as [cls0|e0]; cbn.
  - apply append_positive_error.
  - intros [= <-]. by apply IH.
Qed.

Lemma build_positives_prefix_total k :
  wrapped k →
  is_ok (foldl step (Ok (replicate num_classes [])) (py_range (Z.of_nat k))).
Proof.
  induction k as [|k IH]; intros Hw; [by eexists|].
  destruct IH as [cls0 Hcls0]; [intros i ?; apply Hw; lia|].
  destruct (build_positives_prefix_Ok _ _ Hcls0) as [Hlen _].
  unfold py_range. rewrite seqZ_S, foldl_app, Z.add_0_l. cbn [foldl].
  fold (py_range (Z.of_nat k)). rewrite Hcls0. unfold step. cbn.
  destruct (Hw k) as (l & Hl & Hrange); [lia|].
  unfold append_positive. rewrite (py_getitem_nonneg _ _ _ Hl). cbn.
  unfold py_index. rewrite Hlen.
  destruct (decide (0 ≤ l < Z.of_nat num_classes)); [by eexists|].
  rewrite decide_True by lia. by eexists.
Qed.

Lemma build_positives_outcome num_samples :
  match build_positives labels num_classes num_samples with
  | Ok cls => length cls = num_classes ∧ wrapped num_samples
  | Raise e => e = IndexError ∧ ¬ wrapped num_samples
  end.
Proof.
  unfold build_positives. fold step.
  destruct (foldl step _ _) as [cls|e] eqn:Hb.
  - by apply build_positives_prefix_Ok.
  - split; [by eapply build_positives_prefix_error|].
    intros [cls Hcls]%build_positives_prefix_total. congruence.
Qed.
End build_positives_outcome.

(** X14. [CRDDatasetWrapper.__init__] raises [IndexError], before drawing
    anything, as soon as one of the first [num_samples] labels is missing or
    does not index the class list; without subsampling it succeeds on every
    other dataset; and with [0 < ratio < 1] it raises [IndexError] on a
    dataset without classes. *)
Theorem crd_init_index_errors {image elt : Type} (st : nat → @dataset image elt)
    (org : nat) (n : Z) (m : string) (ratio : float) (g : rng) :
  let labels := ds_targets (st org) in
  let num_classes := length (ds_classes (st org)) in
  let num_samples := ds_len (st org) in
  (¬ indexable_labels labels num_classes num_samples →
   crd_init st org n m ratio g = (Raise IndexError, g))
  ∧ (ratio_in_unit ratio = false → indexable_labels labels num_classes num_samples →
     ∃ w, crd_init st org n m ratio g = (Ok w, g))
  ∧ (ratio_in_unit ratio = true → num_classes = 0%nat →
     crd_init st org n m ratio g = (Raise IndexError, g)).
Proof.
  intros labels num_classes num_samples.
  pose proof (build_positives_outcome labels num_classes num_samples) as Hout.
  unfold crd_init. fold labels num_classes num_samples.
  destruct (build_positives labels num_classes num_samples) as [cls|e].
  - destruct Hout as [Hlen Hw]. split_and!.
    + done.
    + intros -> _. by eexists.
    + intros -> Hnc. rewrite Hnc. done.
  - destruct Hout as [-> Hw]. split_and!; [done|done|done].
Qed.

Lemma crd_init_inv {image elt : Type} (st : nat → @dataset image elt) org n m ratio g w g' :
  let labels := ds_targets (st org) in
  let num_classes := length (ds_classes (st org)) in
  let num_samples := ds_len (st org) in
  valid_labels labels num_classes num_samples →
  crd_init st org n m ratio g = (Ok w, g') →
  crd_base w = base_init org ∧ num_negative_samples w = n ∧ mode w = m
  ∧ cls_positives w = class_positives labels num_samples <$> seq 0 num_classes
  ∧ length (cls_negatives w) = num_classes
  ∧ ∀ c N, cls_negatives w !! c = Some N →
      NoDup N ∧ ∀ i, i ∈ N → i ∈ full_negatives labels num_classes num_samples c.
Proof.
  intros labels num_classes num_samples Hvalid Hinit.
  pose proof (build_positives_spec labels num_classes num_samples Hvalid) as Hpos.
  destruct (ratio_in_unit ratio) eqn:Hratio.
  - unfold crd_init in Hinit. fold labels num_classes num_samples in Hinit.
    rewrite Hratio, Hpos in Hinit.
    unfold mbind, rand_bind, lift, mret, rand_ret, subsample in Hinit.
    destruct (py_getitem _ 0) as [negatives0|]; [|done].
    destruct (py_int_of_float _) as [k|]; [|done].
    destruct (subsample_negatives_spec k
                (build_negatives (class_positives labels num_samples <$> seq 0 num_classes)
                   num_classes) g) as [Hlen Hlook].
    destruct (subsample_negatives _ _ _) as [subs g1]. cbn [fst] in *.
    injection Hinit as <- <-. cbn.
    rewrite build_negatives_length in Hlen. split_and!; try done.
    intros c N HN.
    assert (c < num_classes)%nat as Hc by (apply lookup_lt_Some in HN; lia).
    destruct (Hlook c _ (build_negatives_lookup _ _ _ Hc)) as (p & Hp & Hsub).
    rewrite HN in Hsub. injection Hsub as ->.
    fold (full_negatives labels num_classes num_samples c) in Hp.
    assert (NoDup p) as Hnd by (rewrite <-Hp; by apply negatives_of_NoDup).
    unfold py_slice_to. split.
    + eapply sublist_NoDup; [done|apply sublist_take].
    + intros i Hi%subseteq_take. by rewrite Hp.
  - rewrite (crd_init_plain st org n m ratio g _ Hratio Hpos) in Hinit.
    injection Hinit as <- <-. cbn. fold num_classes.
    split_and!; try done; [apply build_negatives_length|].
    intros c N HN.
    assert (c < num_classes)%nat as Hc.
    { apply lookup_lt_Some in HN. by rewrite build_negatives_length in HN. }
    rewrite build_negatives_lookup in HN by done. injection HN as <-.
    split; [by apply negatives_of_NoDup|done].
Qed.

(** X15. Whatever the ratio, a wrapper that [CRDDatasetWrapper.__init__]
    returns on a dataset with valid labels keeps the class index intact: the
    positive arrays do not depend on the ratio, and every negative array is
    duplicate-free, holds only indices of samples labelled otherwise and shares
    no index with the positive array of its class. *)
Theorem crd_init_negatives_invariant {image elt : Type} (st : nat → @dataset image elt)
    (org : nat) (n : Z) (m : string) (ratio : float) (g g' : rng) (w : CRDDatasetWrapper) :
  let labels := ds_targets (st org) in
  let num_classes := length (ds_classes (st org)) in
  let num_samples := ds_len (st org) in
  valid_labels labels num_classes num_samples →
  crd_init st org n m ratio g = (Ok w, g') →
  cls_positives w = class_positives labels num_samples <$> seq 0 num_classes
  ∧ length (cls_negatives w) = num_classes
  ∧ ∀ c P N, cls_positives w !! c = Some P → cls_negatives w !! c = Some N →
      NoDup N
      ∧ (∀ i, i ∈ N → 0 ≤ i < Z.of_nat num_samples
                      ∧ labels !! Z.to_nat i ≠ Some (Z.of_nat c))
      ∧ (∀ i, i ∈ P → i ∉ N).
Proof.
  intros labels num_classes num_samples Hvalid Hinit.
  destruct (crd_init_inv st org n m ratio g w g' Hvalid Hinit)
    as (_ & _ & _ & Hpos & Hlen & Hneg).
  split; [done|]. split; [done|]. intros c P N HP HN.
  destruct (Hneg c N HN) as [Hnd Hsub]. split; [done|].
  assert (∀ i, i ∈ N → 0 ≤ i < Z.of_nat num_samples
                       ∧ labels !! Z.to_nat i ≠ Some (Z.of_nat c)) as Hlab.
  { intros i Hi%Hsub. by apply negatives_of_elem in Hi. }
  split; [done|]. intros i Hi HiN.
  rewrite Hpos in HP.
  apply list_lookup_fmap_Some_1 in HP as (c' & -> & [-> _]%lookup_seq).
  apply class_positives_elem in Hi as [_ Hi]. by destruct (Hlab i HiN).
Qed.

Lemma crd_init_negatives_invariant_witness :
  NoDup [3; 5]
  ∧ (∀ i, i ∈ [3; 5] → 0 ≤ i < 7 ∧ ex_labels !! Z.to_nat i ≠ Some 0)
  ∧ (∀ i, i ∈ [0; 4] → i ∉ [3; 5]).
Proof.
  exact (proj2 (proj2 (crd_init_negatives_invariant ex_store 0%nat 2 "exact" 0.5%float
                         [1; 2; 3; 4; 5; 6; 7; 8; 9]%nat _ _ ex_labels_valid eq_refl))
           0%nat [0; 4] [3; 5] eq_refl eq_refl).
Defined.

(** X16. The purpose of the class index, end to end: on a dataset with valid
    labels whose item at [index] carries the label [labels[index]], every
    ['contrast_idx'] that [__getitem__] of a constructed wrapper returns starts
    with an index of the same label and continues with indices of other
    labels only, for either mode and any ratio. *)
Theorem crd_contrast_idx_labels {image elt : Type} `{!ElemIndex elt}
    (st : nat → @dataset image elt)
    (org : nat) (n : Z) (m : string) (ratio : float) (g0 g1 g g' : rng)
    (w : CRDDatasetWrapper) (index : Z) (sample : value) (t : Z) (supp : gmap string value) :
  let labels := ds_targets (st org) in
  let num_classes := length (ds_classes (st org)) in
  let num_samples := ds_len (st org) in
  valid_labels labels num_classes num_samples →
  crd_init st org n m ratio g0 = (Ok w, g1) →
  0 ≤ index < Z.of_nat num_samples →
  labels !! Z.to_nat index = Some t →
  crd_getitem st w index g = (Ok (sample, VInt t, supp), g') →
  ∃ pos_idx neg_idx,
    supp !! "contrast_idx" = Some (VArr (pos_idx :: neg_idx))
    ∧ Z.of_nat (length neg_idx) = n
    ∧ 0 ≤ pos_idx < Z.of_nat num_samples
    ∧ labels !! Z.to_nat pos_idx = Some t
    ∧ Forall (λ i, 0 ≤ i < Z.of_nat num_samples ∧ labels !! Z.to_nat i ≠ Some t) neg_idx.
Proof.
  intros labels num_classes num_samples Hvalid Hinit Hindex Hlabel Hget.
  destruct (crd_init_inv st org n m ratio g0 w g1 Hvalid Hinit)
    as (_ & Hn & _ & Hpos & Hlen & Hneg).
  destruct (Hvalid (Z.to_nat index)) as (t' & Ht' & Hrange); [lia|].
  rewrite Hlabel in Ht'. injection Ht' as <-.
  apply crd_getitem_inv in Hget
    as (t' & negatives & pos_idx & neg_idx & _ & [= <-] & Hnegs & Hall & Hcount & Hmode & ->).
  apply py_getitem_nonneg_inv in Hnegs; [|lia].
  destruct (Hneg _ _ Hnegs) as [_ Hsub].
  exists pos_idx, neg_idx.
  split; [by rewrite lookup_insert_eq|]. split; [by rewrite Hcount|].
  assert (0 ≤ pos_idx < Z.of_nat num_samples ∧ labels !! Z.to_nat pos_idx = Some t)
    as [Hp_range Hp_label].
  { destruct Hmode as [[_ ->]|(_ & positives & Hp & Hin)]; [done|].
    apply py_getitem_nonneg_inv in Hp; [|lia].
    rewrite Hpos, list_lookup_fmap, lookup_seq_lt in Hp by lia.
    injection Hp as <-. apply class_positives_elem in Hin as [? Hlab].
    split; [done|]. etrans; [exact Hlab|]. f_equal. lia. }
  split; [done|]. split; [done|].
  eapply list.Forall_impl; [exact Hall|]. intros i Hi%Hsub.
  apply negatives_of_elem in Hi as [? Hi]; [|done]. split; [done|].
  by rewrite Z2Nat.id in Hi by lia.
Qed.

Lemma crd_contrast_idx_labels_witness :
  ∃ pos_idx neg_idx,
    (<["contrast_idx" := VArr [4; 1; 3]]> (<["pos_idx" := VInt 0]> ∅)
       : gmap string (@value Z Z)) !! "contrast_idx" = Some (VArr (pos_idx :: neg_idx))
    ∧ ex_labels !! Z.to_nat pos_idx = Some 0
    ∧ Forall (λ i, 0 ≤ i < 7 ∧ ex_labels !! Z.to_nat i ≠ Some 0) neg_idx.
Proof.
  destruct (crd_contrast_idx_labels ex_store 0%nat 2 "relax" 1%float [] [] [1%nat] []
              ex_crd_relax 0 (VTensor (Tensor [1%nat] [0])) 0
              (<["contrast_idx" := VArr [4; 1; 3]]> (<["pos_idx" := VInt 0]> ∅))
              ex_labels_valid eq_refl ltac:(simpl; lia) eq_refl eq_refl)
    as (p & ns & Hc & _ & _ & Hp & Hall).
  exists p, ns. split; [exact Hc|]. split; [exact Hp|exact Hall].
Defined.

(** X17. What [CRDDatasetWrapper.__getitem__] does with modes and targets
    once the dataset has yielded a pair.  A mode other than ['exact'] and
    ['relax'] raises [NotImplementedError] whatever the target is.  In mode
    ['exact'] a target that cannot index a list ([None], a string, an index
    array, an image, a tensor that is not a single element of an integer
    dtype) raises [TypeError]; in both cases nothing is drawn.  A tensor target
    with a single integer element indexes [cls_negatives] as that integer:
    with enough negatives the result carries the queried index followed by
    [num_negative_samples] of them, drawn without replacement. *)
Theorem crd_getitem_rejects {image elt : Type} `{!ElemIndex elt}
    (st : nat → @dataset image elt) (w : CRDDatasetWrapper) (index : Z) (g : rng)
    (sample target : value) :
  ds_getitem (st (org_dataset (crd_base w))) index = Ok [sample; target] →
  (mode w ≠ "exact" → mode w ≠ "relax" →
   crd_getitem st w index g = (Raise NotImplementedError, g))
  ∧ (mode w = "exact" →
     match target with
     | VInt _ => False
     | VTensor t => ∀ x, storage t = [x] → elem_index x = None
     | _ => True
     end →
     crd_getitem st w index g = (Raise TypeError, g))
  ∧ (mode w = "exact" →
     ∀ t x z negatives,
       target = VTensor t → storage t = [x] → elem_index x = Some z →
       py_getitem (cls_negatives w) z = Ok negatives →
       0 ≤ num_negative_samples w ≤ Z.of_nat (length negatives) →
       ∃ neg_idx rest g',
         crd_getitem st w index g
         = (Ok (sample, target,
                <["contrast_idx" := VArr (index :: neg_idx)]>
                  (<["pos_idx" := VInt index]> ∅)), g')
         ∧ Z.of_nat (length neg_idx) = num_negative_samples w
         ∧ neg_idx ++ rest ≡ₚ negatives).
Proof.
  intros Hitem.
  assert (base_getitem st (crd_base w) index = Ok (sample, target, ∅)) as Hbase
    by by apply base_getitem_Ok.
  unfold crd_getitem. rewrite (rand_bind_lift _ _ _ _ Hbase). split_and!.
  - intros He Hr. rewrite !decide_False by done. done.
  - intros He Ht. rewrite decide_True by done.
    rewrite (rand_bind_Ok _ _ g index g eq_refl).
    assert (as_int target = Raise TypeError) as ->; [|done].
    destruct target as [|z| | | |t]; try done. cbn [as_int].
    destruct (storage t) as [|x [|??]]; try done. by rewrite (Ht x eq_refl).
  - intros He t x z negatives -> Hx Hz Hneg Hsize. rewrite decide_True by done.
    rewrite (rand_bind_Ok _ _ g index g eq_refl).
    rewrite (rand_bind_lift _ _ _ z) by (cbn [as_int]; by rewrite Hx, Hz).
    rewrite (rand_bind_lift _ _ _ negatives) by done.
    rewrite bool_decide_eq_false_2 by lia.
    destruct (np_random_choice_spec negatives (num_negative_samples w) false g)
      as (neg_idx & g' & Hc & Hlen & _ & Hrest); [lia| |lia|].
    { destruct negatives; [right; simpl in Hsize; lia|by left]. }
    destruct (Hrest eq_refl) as [rest Hperm].
    exists neg_idx, rest, g'. rewrite (rand_bind_Ok _ _ _ _ _ Hc).
    split; [done|]. split; [lia|done].
Qed.

Lemma crd_getitem_rejects_witness :
  ∃ neg_idx rest g',
    crd_getitem (λ _, ex_dataset_tensor_targets) ex_crd_exact 3 [1; 2]%nat
    = (Ok (VTensor (Tensor [1%nat] [3]), VTensor (Tensor [] [1]),
           <["contrast_idx" := VArr (3 :: neg_idx)]> (<["pos_idx" := VInt 3]> ∅)), g')
    ∧ Z.of_nat (length neg_idx) = 2
    ∧ neg_idx ++ rest ≡ₚ [0; 4; 2; 5; 6].
Proof.
  refine (proj2 (proj2 (crd_getitem_rejects (λ _, ex_dataset_tensor_targets) ex_crd_exact 3
                          [1; 2]%nat (VTensor (Tensor [1%nat] [3]))
                          (VTensor (Tensor [] [1])) eq_refl))
            eq_refl (Tensor [] [1]) 1 1 [0; 4; 2; 5; 6] eq_refl eq_refl eq_refl eq_refl _).
  simpl. lia.
Defined.

(** A dataset whose targets are one-element integer tensors gives the same
    indices as one whose targets are integers. *)
Example crd_getitem_tensor_target :
  (crd_getitem (λ _, ex_dataset_tensor_targets) ex_crd_exact 3 [1; 2]%nat).1
  = Ok (VTensor (Tensor [1%nat] [3]), VTensor (Tensor [] [1]),
        <["contrast_idx" := VArr [3; 4; 5]]> (<["pos_idx" := VInt 3]> ∅)).
Proof. reflexivity. Qed.

(** X18. The negative draw in mode ['exact']: a negative
    [num_negative_samples], or a positive one when [cls_negatives[target]] is
    empty, raises [ValueError] without consuming randomness; with
    [num_negative_samples = 0] the result's ['contrast_idx'] is the queried
    index alone. *)
Theorem crd_getitem_exact_draw {image elt : Type} `{!ElemIndex elt}
    (st : nat → @dataset image elt)
    (w : CRDDatasetWrapper) (index : Z) (g : rng) (sample : value) (t : Z)
    (negatives : list Z) :
  mode w = "exact" →
  ds_getitem (st (org_dataset (crd_base w))) index = Ok [sample; VInt t] →
  py_getitem (cls_negatives w) t = Ok negatives →
  (num_negative_samples w < 0 ∨ (negatives = [] ∧ num_negative_samples w ≠ 0) →
   crd_getitem st w index g = (Raise ValueError, g))
  ∧ (num_negative_samples w = 0 →
     (crd_getitem st w index g).1
     = Ok (sample, VInt t,
           <["contrast_idx" := VArr [index]]> (<["pos_idx" := VInt index]> ∅))).
Proof.
  intros He Hitem Hneg.
  assert (base_getitem st (crd_base w) index = Ok (sample, VInt t, ∅)) as Hbase
    by by apply base_getitem_Ok.
  unfold crd_getitem. rewrite (rand_bind_lift _ _ _ _ Hbase).
  rewrite decide_True by done.
  rewrite (rand_bind_Ok _ _ g index g eq_refl).
  rewrite (rand_bind_lift _ _ _ t) by done.
  rewrite (rand_bind_lift _ _ _ negatives) by done. split.
  - intros Hrej. unfold mbind, rand_bind.
    by rewrite (np_random_choice_rejects _ _ _ _ Hrej).
  - intros Hzero. rewrite Hzero.
    destruct (np_random_choice_spec negatives 0
                (bool_decide (Z.of_nat (length negatives) < 0)) g)
      as (r & g1 & Hc & Hlen & _); [done|by right|lia|].
    rewrite (rand_bind_Ok _ _ _ _ _ Hc). destruct r; [done|]. by simpl in Hlen.
Qed.

Lemma crd_getitem_exact_draw_witness :
  crd_getitem ex_store ex_crd_no_negatives 0 [1%nat] = (Raise ValueError, [1%nat]).
Proof.
  refine (proj1 (crd_getitem_exact_draw ex_store ex_crd_no_negatives 0 [1%nat]
                   (VTensor (Tensor [1%nat] [0])) 0 [] eq_refl eq_refl eq_refl) _).
  right. split; [reflexivity|discriminate].
Defined.
